(** * User-management REST API: a shallow embedding of the routes, the
    user model and the upload middleware.

    Sources embedded here:
    - [routes/user.js]: the five handlers [/create], [/edit], [/delete],
      [/getAll] and [/uploadImage];
    - [models/User.js]: the schema and its [pre('save')] hook;
    - [middleware/upload.js]: the multer configuration ([fileFilter],
      disk storage naming, size limit).

    JavaScript strings are modelled as [string], one [ascii] per code
    unit, so the development covers strings whose code units are below
    256.  A document has the identifier the model layer gives it and the
    paths the schema declares; the collection is a list in insertion
    order and a loaded document remembers the position it was read
    from. *)

From Stdlib Require Import ZArith Ascii String List Bool Lia.
From stdpp Require Import gmap strings list fin_maps pretty.

Local Open Scope string_scope.
Local Open Scope list_scope.

(** ** Characters and regular expressions *)

Module Re.

Definition code (c : ascii) : N := N_of_ascii c.

Definition in_range (lo hi c : ascii) : bool :=
  (code lo <=? code c)%N && (code c <=? code hi)%N.

(** [A-Z], [a-z], [0-9] *)
Definition upper (c : ascii) : bool := in_range "A" "Z" c.
Definition lower (c : ascii) : bool := in_range "a" "z" c.
Definition digit (c : ascii) : bool := in_range "0" "9" c.

(** [\s] restricted to code units below 256: TAB, LF, VT, FF, CR,
    SPACE and NBSP. *)
Definition space (c : ascii) : bool :=
  in_range (ascii_of_nat 9) (ascii_of_nat 13) c
  || (code c =? 32)%N || (code c =? 160)%N.

Inductive regex : Type :=
| Void
| Eps
| Class (p : ascii -> bool)
| Cat (r1 r2 : regex)
| Alt (r1 r2 : regex)
| Star (r : regex).

Definition Plus (r : regex) : regex := Cat r (Star r).
Definition Chr (c : ascii) : regex := Class (Ascii.eqb c).
Definition Any : regex := Class (fun _ => true).

Fixpoint Lit (s : string) : regex :=
  match s with
  | EmptyString => Eps
  | String c s' => Cat (Chr c) (Lit s')
  end.

Fixpoint nullable (r : regex) : bool :=
  match r with
  | Void => false
  | Eps => true
  | Class _ => false
  | Cat r1 r2 => nullable r1 && nullable r2
  | Alt r1 r2 => nullable r1 || nullable r2
  | Star _ => true
  end.

Fixpoint deriv (c : ascii) (r : regex) : regex :=
  match r with
  | Void => Void
  | Eps => Void
  | Class p => if p c then Eps else Void
  | Cat r1 r2 =>
      if nullable r1
      then Alt (Cat (deriv c r1) r2) (deriv c r2)
      else Cat (deriv c r1) r2
  | Alt r1 r2 => Alt (deriv c r1) (deriv c r2)
  | Star r1 => Cat (deriv c r1) (Star r1)
  end.

(** [/^r$/.test(s)]: the whole string is in the language of [r]. *)
Fixpoint matches (r : regex) (s : string) : bool :=
  match s with
  | EmptyString => nullable r
  | String c s' => matches (deriv c r) s'
  end.

(** [/r/.test(s)] without anchors: some substring is in the language. *)
Definition test (r : regex) (s : string) : bool :=
  matches (Cat (Star Any) (Cat r (Star Any))) s.

End Re.

(** [String.prototype.includes] *)
Fixpoint includes (needle hay : string) : bool :=
  String.prefix needle hay
  || match hay with
     | EmptyString => false
     | String _ hay' => includes needle hay'
     end.

(** ** Request validators (express-validator chains of [routes/user.js]) *)

Module Validator.

(** [/^[A-Za-z\s]+$/], used by [check("fullName").matches(...)] and by
    the schema's [match] on [fullName]. *)
Definition fullName_re : Re.regex :=
  Re.Plus (Re.Class (fun c => Re.upper c || Re.lower c || Re.space c)).

Definition fullName_matches (s : string) : bool :=
  Re.matches fullName_re s.

Record StrongPasswordOptions : Type := {
  minLength : nat;
  minLowercase : nat;
  minUppercase : nat;
  minNumbers : nat;
  minSymbols : nat
}.

(** The option object written at both [isStrongPassword] call sites. *)
Definition password_options : StrongPasswordOptions :=
  {| minLength := 8; minUppercase := 1; minLowercase := 1;
     minNumbers := 1; minSymbols := 1 |}.

(** Punctuation counted as a symbol.  The double quote (34) and the
    pound sign (163) are given by code. *)
Definition symbol_chars : string :=
  "-#!$@%^&*()_+|~=`{}[]:;'<>?,./\ "
  ++ String (ascii_of_nat 34) (String (ascii_of_nat 163) EmptyString).

Definition symbol (c : ascii) : bool :=
  existsb (Ascii.eqb c) (list_ascii_of_string symbol_chars).

Definition count (p : ascii -> bool) (s : string) : nat :=
  length (List.filter p (list_ascii_of_string s)).

(** Modelled from the spec: [isStrongPassword] belongs to the validator
    dependency, which is not part of the repository sources.  It counts
    the characters of each class and compares every count, and the
    length, with the minimum given in the options. *)
Definition isStrongPassword (o : StrongPasswordOptions) (s : string) : bool :=
  (minLength o <=? String.length s)%nat
  && (minLowercase o <=? count Re.lower s)%nat
  && (minUppercase o <=? count Re.upper s)%nat
  && (minNumbers o <=? count Re.digit s)%nat
  && (minSymbols o <=? count symbol s)%nat.

Definition password_ok (s : string) : bool :=
  isStrongPassword password_options s.

End Validator.

(** ** Errors and responses *)

Inductive Path : Type := PfullName | Pemail | Ppassword | PimagePath.

Global Instance Path_eq_dec : EqDecision Path.
Proof. solve_decision. Defined.

Definition path_name (p : Path) : string :=
  match p with
  | PfullName => "fullName"
  | Pemail => "email"
  | Ppassword => "password"
  | PimagePath => "imagePath"
  end.

(** Why a schema validator rejected a path. *)
Inductive Failure : Type :=
| Required (p : Path)
| Invalid (p : Path) (value : string).

Inductive Err : Type :=
| Error (message : string)
| TypeError (message : string)
| MulterError (code : string) (message : string)
| ValidationError (failures : list Failure)
| MongoServerError (message : string).

Definition failure_message (f : Failure) : string :=
  match f with
  | Required p =>
      path_name p ++ ": Path `" ++ path_name p ++ "` is required."
  | Invalid p v =>
      path_name p ++ ": Path `" ++ path_name p ++ "` is invalid (" ++ v ++ ")."
  end.

Fixpoint join (sep : string) (l : list string) : string :=
  match l with
  | [] => ""
  | [x] => x
  | x :: l' => x ++ sep ++ join sep l'
  end.

(** [err.message] *)
Definition err_message (e : Err) : string :=
  match e with
  | Error m | TypeError m | MulterError _ m | MongoServerError m => m
  | ValidationError fs =>
      "User validation failed: " ++ join ", " (List.map failure_message fs)
  end.

(** One entry of a query result: the identifier and the selected paths
    with their values, [None] standing for [null]. *)
Definition Entry : Type := list (string * option string).

Inductive ResBody : Type :=
| JsonError (error : string)                       (* { error } *)
| JsonErrorDetails (error details : string)        (* { error, details } *)
| JsonMessage (message : string)                   (* { message } *)
| JsonUsers (users : list Entry)                   (* { users } *)
| JsonUpload (message filePath : string)           (* { message, filePath } *)
| ErrorPage (e : Err).              (* written by the framework, not a route *)

Record Response : Type := mkResponse { status : nat; body : ResBody }.

(** No error-handling middleware is registered in [app.js]: an error
    handed to [next] by a middleware is answered by the framework's
    final handler, with the error's [status] when it has one and 500
    otherwise.  None of the errors above carries a status. *)
Definition final_handler (e : Err) : Response :=
  mkResponse 500 (ErrorPage e).

(** ** The user model ([models/User.js]) *)

Record User : Type := mkUser {
  _id : string;                      (* the document's ObjectId *)
  fullName : string;
  email : string;
  password : string;
  imagePath : option string          (* [None] is [null] *)
}.

Global Instance User_eq_dec : EqDecision User.
Proof. solve_decision. Defined.

Module Schema.

(** [/^[^\s@]+@[^\s@]+\.[^\s@]+$/] *)
Definition atom : Re.regex :=
  Re.Plus (Re.Class (fun c => negb (Re.space c || Ascii.eqb c "@"))).

Definition email_re : Re.regex :=
  Re.Cat atom (Re.Cat (Re.Chr "@") (Re.Cat atom (Re.Cat (Re.Chr ".") atom))).

Definition email_matches (s : string) : bool := Re.matches email_re s.

(** [required: true] on a String path: the value is a non-empty string.
    [match]: an empty value passes, any other must match. *)
Definition required (v : string) : bool := negb (String.eqb v "").

Definition match_ (re : Re.regex) (v : string) : bool :=
  String.eqb v "" || Re.matches re v.

Definition check (p : Path) (re : option Re.regex) (v : string)
  : list Failure :=
  if negb (required v) then [Required p]
  else match re with
       | Some r => if match_ r v then [] else [Invalid p v]
       | None => []
       end.

End Schema.

(** A document instance held by a handler.  [origin] is the position it
    was loaded from, [None] for one built by [new User(...)].  The
    password is absent from a loaded document ([select: false]).
    [modified] lists the paths assigned since construction or load. *)
Record Doc : Type := mkDoc {
  origin : option nat;
  doc_id : string;
  doc_fullName : string;
  doc_email : string;
  doc_password : option string;
  doc_imagePath : option string;
  modified : list Path
}.

Definition isModified (p : Path) (d : Doc) : bool :=
  bool_decide (p ∈ modified d).

Definition markModified (p : Path) (d : Doc) : list Path :=
  if isModified p d then modified d else modified d ++ [p].

(** [new User({ fullName, email, password })]: the document gets a
    newly drawn identifier, every given path counts as modified,
    [imagePath] takes its default. *)
Definition new_User (id fullName email password : string) : Doc :=
  {| origin := None;
     doc_id := id;
     doc_fullName := fullName;
     doc_email := email;
     doc_password := Some password;
     doc_imagePath := None;
     modified := [PfullName; Pemail; Ppassword] |}.

(** Assignments to a path: the path becomes modified when the value
    changes. *)
Definition set_fullName (v : string) (d : Doc) : Doc :=
  if String.eqb (doc_fullName d) v then d
  else {| origin := origin d; doc_id := doc_id d;
          doc_fullName := v; doc_email := doc_email d;
          doc_password := doc_password d; doc_imagePath := doc_imagePath d;
          modified := markModified PfullName d |}.

Definition set_password (v : string) (d : Doc) : Doc :=
  if bool_decide (doc_password d = Some v) then d
  else {| origin := origin d; doc_id := doc_id d;
          doc_fullName := doc_fullName d;
          doc_email := doc_email d; doc_password := Some v;
          doc_imagePath := doc_imagePath d;
          modified := markModified Ppassword d |}.

Definition set_imagePath (v : string) (d : Doc) : Doc :=
  if bool_decide (doc_imagePath d = Some v) then d
  else {| origin := origin d; doc_id := doc_id d;
          doc_fullName := doc_fullName d;
          doc_email := doc_email d; doc_password := doc_password d;
          doc_imagePath := Some v;
          modified := markModified PimagePath d |}.

(** ** The collection *)

Definition load (i : nat) (u : User) : Doc :=
  {| origin := Some i;
     doc_id := _id u;
     doc_fullName := fullName u;
     doc_email := email u;
     doc_password := None;
     doc_imagePath := imagePath u;
     modified := [] |}.

(** [User.findOne({ email })]: the first document with that email. *)
Definition findOne (e : string) (users : list User) : option Doc :=
  match list_find (fun u => email u = e) users with
  | Some (i, u) => Some (load i u)
  | None => None
  end.

(** Validation run by [save]: the paths the document holds, in schema
    order; the password of a loaded document is skipped while it is
    neither selected nor assigned. *)
Definition validate (d : Doc) : list Failure :=
  Schema.check PfullName (Some Validator.fullName_re) (doc_fullName d)
  ++ Schema.check Pemail (Some Schema.email_re) (doc_email d)
  ++ match doc_password d, origin d with
     | Some p, _ => Schema.check Ppassword None p
     | None, None => [Required Ppassword]
     | None, Some _ => []
     end.

(** The update sent for a loaded document sets its modified paths. *)
Definition apply_modified (d : Doc) (u : User) : User :=
  {| _id := _id u;
     fullName := if isModified PfullName d then doc_fullName d else fullName u;
     email := if isModified Pemail d then doc_email d else email u;
     password := match doc_password d with
                 | Some p => if isModified Ppassword d then p else password u
                 | None => password u
                 end;
     imagePath := if isModified PimagePath d then doc_imagePath d
                  else imagePath u |}.

Definition to_user (d : Doc) : User :=
  {| _id := doc_id d;
     fullName := doc_fullName d;
     email := doc_email d;
     password := default "" (doc_password d);
     imagePath := doc_imagePath d |}.

(** ** External collaborators

    The address validator and sanitizer, the password hash and the text
    of the database's duplicate-key error are taken as parameters: every
    statement below holds whatever they compute. *)
Record Deps : Type := mkDeps {
  isEmail : string -> bool;
  normalizeEmail : string -> string;
  (** [bcrypt.hash(data, rounds)], with the salt it draws made explicit *)
  bcrypt_hash : string -> nat -> string -> string;
  e11000 : string -> string
}.

(** What a request takes from its environment: the identifier drawn by
    [new User], the salts drawn by the handler's and by the hook's call
    of the hash, and [Date.now()]. *)
Record Env : Type := mkEnv {
  objectId : string;
  salt1 : string;
  salt2 : string;
  now : Z
}.

Section JsonRoutes.

Variable D : Deps.

(** *** [save] and its [pre('save')] hook *)

Definition pre_save (salt : string) (d : Doc) : Err + Doc :=
  if isModified Ppassword d then
    match doc_password d with
    | Some p => inr (set_password (bcrypt_hash D p 10 salt) d)
    | None => inl (Error "Illegal arguments: undefined, number")
    end
  else inr d.

(** The unique indexes, on [_id] and on [email], reject an insert whose
    key is taken. *)
Definition insertOne (u : User) (users : list User) : Err + list User :=
  if bool_decide (Exists (fun v => _id v = _id u) users)
  then inl (MongoServerError (e11000 D (_id u)))
  else if bool_decide (Exists (fun v => email v = email u) users)
  then inl (MongoServerError (e11000 D (email u)))
  else inr (users ++ [u]).

Definition save (salt : string) (d : Doc) (users : list User)
  : Err + list User :=
  match validate d with
  | [] =>
      match pre_save salt d with
      | inl e => inl e
      | inr d' =>
          match origin d' with
          | None => insertOne (to_user d') users
          | Some i => inr (alter (apply_modified d') i users)
          end
      end
  | fs => inl (ValidationError fs)
  end.

(** [existingUser.deleteOne()] *)
Definition deleteOne (d : Doc) (users : list User) : list User :=
  match origin d with
  | Some i => delete i users
  | None => users
  end.

(** *** JSON routes

    The body of a JSON request carries the three fields as strings, and
    carries them in the body only. *)

Record JsonBody : Type := mkBody {
  req_email : string;
  req_fullName : string;
  req_password : string
}.

Definition validation_failed : Response :=
  mkResponse 400 (JsonError "Validation failed").

(** [POST /create], [routes/user.js] lines 45-92.  The chains are
    [check("email").isEmail().normalizeEmail()],
    [check("fullName").matches(...)] and
    [check("password").isStrongPassword(...)]; the sanitizer replaces
    [req.body.email] by its normal form before the handler runs. *)
Definition create_valid (b : JsonBody) : bool :=
  isEmail D (req_email b)
  && Validator.fullName_matches (req_fullName b)
  && Validator.password_ok (req_password b).

Definition createUser (env : Env) (b : JsonBody) (users : list User)
  : Response * list User :=
  if negb (create_valid b) then (validation_failed, users)
  else
    let fullName := req_fullName b in
    let email := normalizeEmail D (req_email b) in
    let password := req_password b in
    match findOne email users with
    | Some _ =>
        (mkResponse 400 (JsonError "Email already registered"), users)
    | None =>
        let hashedPassword := bcrypt_hash D password 10 (salt1 env) in
        let newUser :=
        new_User (objectId env) fullName email hashedPassword in
        match save (salt2 env) newUser users with
        | inr users' =>
            (mkResponse 201 (JsonMessage "User created successfully"),
             users')
        | inl err =>
            (mkResponse 500
               (JsonErrorDetails "User creation failed" (err_message err)),
             users)
        end
    end.

(** [PUT /edit], lines 130-173.  No chain is declared for [email]. *)
Definition edit_valid (b : JsonBody) : bool :=
  Validator.fullName_matches (req_fullName b)
  && Validator.password_ok (req_password b).

Definition editUser (env : Env) (b : JsonBody) (users : list User)
  : Response * list User :=
  if negb (edit_valid b) then (validation_failed, users)
  else
    let fullName := req_fullName b in
    let email := req_email b in
    let password := req_password b in
    match findOne email users with
    | None => (mkResponse 404 (JsonError "User not found"), users)
    | Some existingUser =>
        let hashedPassword := bcrypt_hash D password 10 (salt1 env) in
        let existingUser := set_fullName fullName existingUser in
        let existingUser := set_password hashedPassword existingUser in
        match save (salt2 env) existingUser users with
        | inr users' =>
            (mkResponse 200 (JsonMessage "User updated successfully."),
             users')
        | inl err =>
            (mkResponse 500
               (JsonErrorDetails "User Updation failed" (err_message err)),
             users)
        end
    end.

(** [DELETE /delete], lines 211-241. *)
Definition delete_valid (b : JsonBody) : bool := isEmail D (req_email b).

Definition deleteUser (b : JsonBody) (users : list User)
  : Response * list User :=
  if negb (delete_valid b) then (validation_failed, users)
  else
    let email := normalizeEmail D (req_email b) in
    match findOne email users with
    | None => (mkResponse 404 (JsonError "User not found"), users)
    | Some existingUser =>
        (mkResponse 200 (JsonMessage "User deletion successful."),
         deleteOne existingUser users)
    end.

End JsonRoutes.

(** ** Queries with a projection ([/getAll]) *)

Definition schema_paths : list Path :=
  [PfullName; Pemail; Ppassword; PimagePath].

(** The schema's [select] option: only [password] is [select: false]. *)
Definition select_option (p : Path) : bool :=
  match p with
  | Ppassword => false
  | _ => true
  end.

(** A projection string is cut at white space into path names. *)
Fixpoint words_from (acc s : string) : list string :=
  match s with
  | EmptyString => if String.eqb acc "" then [] else [acc]
  | String c s' =>
      if Re.space c
      then (if String.eqb acc "" then words_from "" s'
            else acc :: words_from "" s')
      else words_from (acc ++ String c EmptyString) s'
  end.

Definition words (s : string) : list string := words_from "" s.

(** Which paths a query returns: with an inclusive projection the
    listed ones, with none those the schema selects by default.  The
    identifier is returned in either case. *)
Definition selected (projection : option string) (p : Path) : bool :=
  match projection with
  | Some fields => bool_decide (path_name p ∈ words fields)
  | None => select_option p
  end.

Definition value_of (p : Path) (u : User) : option string :=
  match p with
  | PfullName => Some (fullName u)
  | Pemail => Some (email u)
  | Ppassword => Some (password u)
  | PimagePath => imagePath u
  end.

Definition project (projection : option string) (u : User) : Entry :=
  ("_id", Some (_id u))
  :: List.map (fun p => (path_name p, value_of p u))
       (List.filter (selected projection) schema_paths).

(** [User.find({}, projection)]; [GET /getAll] is lines 278-286. *)
Definition find_all (projection : option string) (users : list User)
  : list Entry :=
  List.map (project projection) users.

Definition getAll (users : list User) : Response * list User :=
  let found := find_all (Some "fullName email password ") users in
  (mkResponse 200 (JsonUsers found), users).

(** ** The upload middleware ([middleware/upload.js]) *)

(** A file part of a multipart body: the form field it is sent in, the
    file name and content-type it declares, and its bytes. *)
Record File : Type := mkFile {
  fieldname : string;
  originalname : string;
  mimetype : string;
  size : N;                       (* bytes in the part *)
  data : string                   (* stands for the content *)
}.

(** [req.file] as the disk storage fills it. *)
Record ReqFile : Type := mkReqFile {
  path : string;
  filename : string
}.

Module Upload.

Definition destination : string := "images/".

Definition make_filename (now : Z) (file : File) : string :=
  pretty now ++ "-" ++ originalname file.

(** [/jpeg|jpg|png|gif/] *)
Definition fileTypes : Re.regex :=
  Re.Alt (Re.Lit "jpeg")
    (Re.Alt (Re.Lit "jpg") (Re.Alt (Re.Lit "png") (Re.Lit "gif"))).

Definition fileFilter (file : File) : Err + bool :=
  let extname := Re.test fileTypes (mimetype file) in
  let mimetype := Re.test fileTypes (mimetype file) in
  if extname && mimetype then inr true
  else inl (Error "Invalid file format. Only JPEG, PNG, and GIF are allowed.").

Definition fileSize : N := 5 * 1024 * 1024.

(** [upload.single("image")].  A part without file name is no file.
    A file in a field other than [image] is refused.  Otherwise the
    part is filtered, then written under [destination] while its bytes
    are counted; once the count reaches [fileSize] the part is aborted
    and its file removed.  The result is [req.file], or the error given
    to [next]. *)
Definition single (now : Z) (part : option File) (disk : gmap string string)
  : (Err + option ReqFile) * gmap string string :=
  match part with
  | None => (inr None, disk)
  | Some file =>
      if String.eqb (originalname file) "" then (inr None, disk)
      else if negb (String.eqb (fieldname file) "image")
      then (inl (MulterError "LIMIT_UNEXPECTED_FILE" "Unexpected field"),
            disk)
      else
        match fileFilter file with
        | inl e => (inl e, disk)
        | inr false => (inr None, disk)
        | inr true =>
            let name := make_filename now file in
            let p := (destination ++ name)%string in
            if (fileSize <=? size file)%N
            then (inl (MulterError "LIMIT_FILE_SIZE" "File too large"),
                  delete p disk)
            else (inr (Some {| path := p; filename := name |}),
                  <[p := data file]> disk)
        end
  end.

End Upload.

(** ** [/uploadImage] *)

Record State : Type := mkState {
  users : list User;
  disk : gmap string string
}.

Record UploadRequest : Type := mkUpload {
  up_email : string;
  up_file : option File
}.

(** JavaScript truthiness of [user.imagePath]. *)
Definition truthy (v : option string) : bool :=
  match v with
  | Some s => negb (String.eqb s "")
  | None => false
  end.

Section UploadRoute.

Variable D : Deps.

(** The [catch] clause of the handler. *)
Definition upload_catch (err : Err) : Response :=
  if includes "Invalid file format" (err_message err)
  then mkResponse 400 (JsonError (err_message err))
  else mkResponse 500 (JsonError "Server error.").

(** [POST /uploadImage], lines 328-368: the handler proper, entered
    once the middleware called [next()].  No validation chain is
    declared, so [validationResult(req)] is empty. *)
Definition uploadImage_handler (env : Env) (email : string)
    (file : option ReqFile) (users : list User) : Response * list User :=
  match findOne email users with
  | None => (mkResponse 404 (JsonError "User not found."), users)
  | Some user =>
      if truthy (doc_imagePath user)
      then (mkResponse 400 (JsonError "Image already exists for this user."),
            users)
      else
        match file with
        | None =>
            (* [req.file.path] with [req.file] undefined *)
            (upload_catch
               (TypeError
                  "Cannot read properties of undefined (reading 'path')"),
             users)
        | Some f =>
            let user := set_imagePath (path f) user in
            match save D (salt2 env) user users with
            | inl err => (upload_catch err, users)
            | inr users' =>
                (mkResponse 201
                   (JsonUpload "Image uploaded successfully."
                      ("/images/" ++ filename f)%string),
                 users')
            end
        end
  end.

Definition uploadImage (env : Env) (r : UploadRequest) (st : State)
  : Response * State :=
  match Upload.single (now env) (up_file r) (disk st) with
  | (inl err, disk') =>
      (final_handler err, {| users := users st; disk := disk' |})
  | (inr file, disk') =>
      let (res, users') :=
        uploadImage_handler env (up_email r) file (users st) in
      (res, {| users := users'; disk := disk' |})
  end.

(** ** The API as one transition function *)

Inductive Request : Type :=
| Create (b : JsonBody)
| Edit (b : JsonBody)
| Delete (b : JsonBody)
| GetAll
| UploadImage (r : UploadRequest).

Definition on_users (st : State) (out : Response * list User)
  : Response * State :=
  (fst out, {| users := snd out; disk := disk st |}).

Definition handle (env : Env) (r : Request) (st : State)
  : Response * State :=
  match r with
  | Create b => on_users st (createUser D env b (users st))
  | Edit b => on_users st (editUser D env b (users st))
  | Delete b => on_users st (deleteUser D b (users st))
  | GetAll => on_users st (getAll (users st))
  | UploadImage u => uploadImage env u st
  end.

End UploadRoute.

(** ** A sample instance of the collaborators

    Used to run the handlers on concrete requests.  On the plain
    addresses of the examples it agrees with the address validator
    (they are accepted) and with the sanitizer (they are lower-cased);
    the hash is a tagged concatenation, enough to tell hashes apart. *)
Module Sample.

Definition lower_char (c : ascii) : ascii :=
  if Re.upper c then ascii_of_N (Re.code c + 32) else c.

Fixpoint toLowerCase (s : string) : string :=
  match s with
  | EmptyString => EmptyString
  | String c s' => String (lower_char c) (toLowerCase s')
  end.

Definition hash (s : string) (rounds : nat) (salt : string) : string :=
  "$2a$" ++ pretty rounds ++ "$" ++ salt ++ "$" ++ s.

Definition deps : Deps :=
  {| isEmail := Schema.email_matches;
     normalizeEmail := toLowerCase;
     bcrypt_hash := hash;
     e11000 := String.append "E11000 duplicate key error dup key: " |}.

Definition env : Env :=
  {| objectId := "65532ae0c0ffee0000000001";
     salt1 := "s1"; salt2 := "s2"; now := 1700000000000 |}.

Definition init : State := {| users := []; disk := ∅ |}.

(** The address validator also accepts a quoted local part, which may
    hold white space: a second instance that does so, for addresses of
    the form ["..."@domain.tld]. *)
Definition quote : ascii := ascii_of_nat 34.

Definition quoted_re : Re.regex :=
  Re.Cat (Re.Chr quote)
    (Re.Cat (Re.Star (Re.Class (fun c => negb (Ascii.eqb c quote))))
       (Re.Cat (Re.Chr quote)
          (Re.Cat (Re.Chr "@")
             (Re.Cat Schema.atom (Re.Cat (Re.Chr ".") Schema.atom))))).

Definition isEmail_quoted (s : string) : bool :=
  Schema.email_matches s || Re.matches quoted_re s.

Definition deps_quoted : Deps :=
  {| isEmail := isEmail_quoted;
     normalizeEmail := toLowerCase;
     bcrypt_hash := hash;
     e11000 := String.append "E11000 duplicate key error dup key: " |}.

End Sample.

(** ** Vocabulary of the statements *)

Definition contains (p : ascii -> bool) (s : string) : Prop :=
  exists c, In c (list_ascii_of_string s) /\ p c = true.

Definition stored_file (now : Z) (f : File) : ReqFile :=
  {| path := (Upload.destination ++ Upload.make_filename now f)%string;
     filename := Upload.make_filename now f |}.

(** The strength rule, in words. *)
Definition strong_password (s : string) : Prop :=
  (8 <= String.length s)%nat
  /\ contains Re.upper s /\ contains Re.lower s
  /\ contains Re.digit s /\ contains Validator.symbol s.

Definition middleware_rejects (file : File) : bool :=
  negb (Re.test Upload.fileTypes (mimetype file))
  || (Upload.fileSize <=? size file)%N.

(** The file parts the middleware writes to disk and hands to the
    handler: named, sent in the field [image], of an accepted type and
    smaller than [fileSize]. *)
Definition stores_file (file : File) : bool :=
  negb (String.eqb (originalname file) "")
  && String.eqb (fieldname file) "image"
  && negb (middleware_rejects file).

Definition double_hash (D : Deps) (env : Env) (plaintext : string) : string :=
  bcrypt_hash D (bcrypt_hash D plaintext 10 (salt1 env)) 10 (salt2 env).

Definition new_document (D : Deps) (env : Env) (b : JsonBody) : User :=
  {| _id := objectId env;
     fullName := req_fullName b;
     email := normalizeEmail D (req_email b);
     password := double_hash D env (req_password b);
     imagePath := None |}.

Definition edited_document (D : Deps) (env : Env) (b : JsonBody) (u : User)
  : User :=
  {| _id := _id u;
     fullName := req_fullName b;
     email := email u;
     password := double_hash D env (req_password b);
     imagePath := imagePath u |}.

Definition count_email (e : string) (us : list User) : nat :=
  length (List.filter (fun u => String.eqb (email u) e) us).

(** How one request may change the collection. *)
Inductive users_step (us : list User) : list User -> Prop :=
| step_same : users_step us us
| step_insert (u : User) :
    Forall (fun v => email v <> email u) us ->
    imagePath u = None ->
    users_step us (us ++ [u])
| step_update (i : nat) (u u' : User) :
    us !! i = Some u ->
    email u' = email u ->
    imagePath u' = imagePath u \/ truthy (imagePath u) = false ->
    users_step us (<[i := u']> us)
| step_delete (i : nat) :
    users_step us (delete i us).

Definition unique_emails (us : list User) : Prop := NoDup (email <$> us).

Definition with_imagePath (p : string) (u : User) : User :=
  {| _id := _id u; fullName := fullName u; email := email u;
     password := password u; imagePath := Some p |}.

(** States reached from the empty one by any sequence of requests. *)
Inductive reachable (D : Deps) : State -> Prop :=
| reach_init : reachable D {| users := []; disk := ∅ |}
| reach_step (st : State) (env : Env) (r : Request) :
    reachable D st -> reachable D (snd (handle D env r st)).

(** ** Sample requests and states *)

Definition sample_user : User :=
  {| _id := "65532ae0c0ffee0000000001";
     fullName := "A B"; email := "a@b.com";
     password := "$2a$10$s2$$2a$10$s1$Password1!"; imagePath := None |}.

Definition other_user : User :=
  {| _id := "65532ae0c0ffee0000000002";
     fullName := "Zed Young"; email := "z@b.com";
     password := "$2a$10$t2$$2a$10$t1$Password9!"; imagePath := None |}.

Definition edit_body : JsonBody :=
  {| req_email := "a@b.com"; req_fullName := "C D";
     req_password := "Password2!" |}.

Definition edited_user : User :=
  {| _id := "65532ae0c0ffee0000000001";
     fullName := "C D"; email := "a@b.com";
     password := "$2a$10$s2$$2a$10$s1$Password2!"; imagePath := None |}.

Definition sample_body : JsonBody :=
  {| req_email := "a@b.com"; req_fullName := "A B";
     req_password := "Password1!" |}.

Definition quoted_body : JsonBody :=
  {| req_email :=
       String Sample.quote ("a b" ++ String Sample.quote "@example.com");
     req_fullName := "A B";
     req_password := "Password1!" |}.

Definition mixed_case_body : JsonBody :=
  {| req_email := "A@B.com"; req_fullName := "A B";
     req_password := "Password1!" |}.

Definition sample_state : State :=
  {| users := [sample_user]; disk := ∅ |}.

Definition png_6MiB : File :=
  {| fieldname := "image";
     originalname := "me.png"; mimetype := "image/png";
     size := 6 * 1024 * 1024; data := "big" |}.

Definition png_5MiB : File :=
  {| fieldname := "image";
     originalname := "me.png"; mimetype := "image/png";
     size := 5 * 1024 * 1024; data := "limit" |}.

Definition png_small : File :=
  {| fieldname := "image";
     originalname := "me.png"; mimetype := "image/png";
     size := 1000; data := "PNGDATA" |}.

Definition stored_path : string := "images/1700000000000-me.png".

Definition user_with_image : User :=
  {| _id := "65532ae0c0ffee0000000001";
     fullName := "A B"; email := "a@b.com";
     password := "$2a$10$s2$$2a$10$s1$Password1!";
     imagePath := Some stored_path |}.

Definition state_with_image : State :=
  {| users := [user_with_image];
     disk := {[ stored_path := "PNGDATA" ]} |}.

Definition png_later : File :=
  {| fieldname := "image";
     originalname := "other.png"; mimetype := "image/png";
     size := 2000; data := "OTHER" |}.

Definition png_same_name : File :=
  {| fieldname := "image";
     originalname := "me.png"; mimetype := "image/png";
     size := 2000; data := "OTHER" |}.

(** ** Languages of regular expressions

    The words a regular expression denotes, against which the
    derivative matcher is checked. *)

Inductive in_lang : Re.regex -> string -> Prop :=
| in_eps : in_lang Re.Eps ""
| in_class (p : ascii -> bool) (c : ascii) :
    p c = true -> in_lang (Re.Class p) (String c "")
| in_cat (r1 r2 : Re.regex) (s1 s2 : string) :
    in_lang r1 s1 -> in_lang r2 s2 -> in_lang (Re.Cat r1 r2) (s1 ++ s2)
| in_alt_l (r1 r2 : Re.regex) (s : string) :
    in_lang r1 s -> in_lang (Re.Alt r1 r2) s
| in_alt_r (r1 r2 : Re.regex) (s : string) :
    in_lang r2 s -> in_lang (Re.Alt r1 r2) s
| in_star_nil (r : Re.regex) : in_lang (Re.Star r) ""
| in_star_cons (r : Re.regex) (s1 s2 : string) :
    in_lang r s1 -> in_lang (Re.Star r) s2 ->
    in_lang (Re.Star r) (s1 ++ s2).

(** Every character of [s] satisfies [p]. *)
Definition all_chars (p : ascii -> bool) (s : string) : Prop :=
  forall c, In c (list_ascii_of_string s) -> p c = true.

(** A non-empty run of characters other than white space and [@]. *)
Definition email_atom (s : string) : Prop :=
  s <> ""
  /\ all_chars (fun c => negb (Re.space c || Ascii.eqb c "@")) s.

(** ** What holds of every stored user *)

(** The stored fields have the shapes the schema asks for. *)
Definition well_formed (u : User) : Prop :=
  Validator.fullName_matches (fullName u) = true
  /\ Schema.email_matches (email u) = true.

(** The stored email is the normal form of an address the validator
    accepted. *)
Definition normalized_email (D : Deps) (u : User) : Prop :=
  exists raw, isEmail D raw = true /\ email u = normalizeEmail D raw.

(** The stored password is the hash of the hash of a strong password. *)
Definition hashed_password (D : Deps) (u : User) : Prop :=
  exists plaintext s1 s2,
    Validator.password_ok plaintext = true
    /\ password u
       = bcrypt_hash D (bcrypt_hash D plaintext 10 s1) 10 s2.

(** The image path is [null] or names a file under [images/]. *)
Definition image_under_destination (u : User) : Prop :=
  imagePath u = None
  \/ exists (t : Z) (name : string),
       imagePath u
       = Some (Upload.destination ++ pretty t ++ "-" ++ name)%string.

Definition stored_ok (D : Deps) (u : User) : Prop :=
  well_formed u /\ normalized_email D u /\ hashed_password D u
  /\ image_under_destination u.

(** * Properties *)

(** ** Regular expressions on examples *)

Example fullName_ok : Validator.fullName_matches "John Doe" = true.
Proof. reflexivity. Qed.

Example fullName_digit : Validator.fullName_matches "John Doe 2" = false.
Proof. reflexivity. Qed.

Example fullName_empty : Validator.fullName_matches "" = false.
Proof. reflexivity. Qed.

(** ** Password strength *)

Lemma count_pos (p : ascii -> bool) (s : string) :
  (1 <=? Validator.count p s)%nat = true <-> contains p s.
Proof.
  unfold Validator.count, contains.
  rewrite Nat.leb_le.
  induction (list_ascii_of_string s) as [| c l IH]; simpl.
  - split; [lia | intros (c & [] & _)].
  - destruct (p c) eqn:Hc; simpl.
    + split; [intros _; exists c; auto | lia].
    + rewrite IH. split.
      * intros (x & Hin & Hx). exists x. auto.
      * intros (x & [-> | Hin] & Hx); [congruence | exists x; auto].
Qed.

Lemma password_ok_strong (s : string) :
  Validator.password_ok s = true <-> strong_password s.
Proof.
  unfold Validator.password_ok, Validator.isStrongPassword, strong_password.
  cbn [Validator.password_options Validator.minLength
       Validator.minLowercase Validator.minUppercase Validator.minNumbers
       Validator.minSymbols].
  rewrite !andb_true_iff, !count_pos, Nat.leb_le. tauto.
Qed.

Lemma createUser_validation D env b us :
  fst (createUser D env b us) = validation_failed <->
  create_valid D b = false.
Proof.
  unfold createUser. destruct (create_valid D b); cbn [negb].
  - split; [| discriminate].
    destruct (findOne (normalizeEmail D (req_email b)) us); [discriminate |].
    destruct (save D (salt2 env) _ us); discriminate.
  - split; reflexivity.
Qed.

Lemma editUser_validation D env b us :
  fst (editUser D env b us) = validation_failed <-> edit_valid b = false.
Proof.
  unfold editUser. destruct (edit_valid b); cbn [negb].
  - split; [| discriminate].
    destruct (findOne (req_email b) us); [| discriminate].
    destruct (save D (salt2 env) _ us); discriminate.
  - split; reflexivity.
Qed.

(** C9.  [/create] and [/edit] answer [Validation failed] exactly when
    one of their chains rejects, and the password chain rejects exactly
    the strings that lack one of: 8 characters, an upper-case letter, a
    lower-case letter, a digit, a symbol.  A rejected request leaves the
    collection untouched.  So [password1] makes both routes answer 400
    before any storage interaction, and with [Password1!] neither route
    answers [Validation failed] once the other fields are accepted. *)
Theorem password_strength_rule :
  (forall D env b us,
      fst (createUser D env b us) = validation_failed <->
      ~ (isEmail D (req_email b) = true
         /\ Validator.fullName_matches (req_fullName b) = true
         /\ strong_password (req_password b)))
  /\ (forall D env b us,
         fst (editUser D env b us) = validation_failed <->
         ~ (Validator.fullName_matches (req_fullName b) = true
            /\ strong_password (req_password b)))
  /\ (forall D env b us,
         ~ strong_password (req_password b) ->
         createUser D env b us = (validation_failed, us)
         /\ editUser D env b us = (validation_failed, us))
  /\ (forall D env e n us,
         createUser D env (mkBody e n "password1") us
         = (validation_failed, us)
         /\ editUser D env (mkBody e n "password1") us
            = (validation_failed, us))
  /\ (forall D env e n us,
         Validator.fullName_matches n = true ->
         (isEmail D e = true ->
          fst (createUser D env (mkBody e n "Password1!") us)
          <> validation_failed)
         /\ fst (editUser D env (mkBody e n "Password1!") us)
            <> validation_failed).
Proof.
  assert (Hweak : forall D env b us,
             Validator.password_ok (req_password b) = false ->
             createUser D env b us = (validation_failed, us)
             /\ editUser D env b us = (validation_failed, us)).
  { intros D env b us Hpw. unfold createUser, create_valid, editUser,
      edit_valid. rewrite Hpw, !andb_false_r. split; reflexivity. }
  split; [| split; [| split; [| split]]].
  - intros D env b us. rewrite createUser_validation. unfold create_valid.
    rewrite <- password_ok_strong.
    destruct (isEmail D (req_email b)),
      (Validator.fullName_matches (req_fullName b)),
      (Validator.password_ok (req_password b)); cbn;
      split; intros H; try reflexivity; try discriminate;
      try (intros (? & ? & ?); discriminate).
    exfalso. apply H. auto.
  - intros D env b us. rewrite editUser_validation. unfold edit_valid.
    rewrite <- password_ok_strong.
    destruct (Validator.fullName_matches (req_fullName b)),
      (Validator.password_ok (req_password b)); cbn;
      split; intros H; try reflexivity; try discriminate;
      try (intros (? & ?); discriminate).
    exfalso. apply H. auto.
  - intros D env b us Hweak'. apply Hweak.
    rewrite <- password_ok_strong in Hweak'.
    now destruct (Validator.password_ok (req_password b)).
  - intros D env e n us. now apply Hweak.
  - intros D env e n us Hn. split.
    + intros He Hfail. apply createUser_validation in Hfail.
      unfold create_valid in Hfail. cbn [req_email req_fullName req_password]
        in Hfail.
      rewrite He, Hn in Hfail. discriminate Hfail.
    + intros Hfail. apply editUser_validation in Hfail.
      unfold edit_valid in Hfail. cbn [req_fullName req_password] in Hfail.
      rewrite Hn in Hfail. discriminate Hfail.
Qed.

Lemma password_strength_rule_witness :
  createUser Sample.deps Sample.env (mkBody "a@b.com" "A B" "password1") []
  = (validation_failed, [])
  /\ fst (createUser Sample.deps Sample.env
            (mkBody "a@b.com" "A B" "Password1!") [])
     <> validation_failed
  /\ fst (editUser Sample.deps Sample.env
            (mkBody "a@b.com" "A B" "Password1!") [])
     <> validation_failed.
Proof.
  destruct password_strength_rule as (_ & _ & Hweak & _ & Hstrong).
  split.
  - apply (Hweak Sample.deps Sample.env (mkBody "a@b.com" "A B" "password1")
             []).
    intros Hs. apply password_ok_strong in Hs. discriminate Hs.
  - destruct (Hstrong Sample.deps Sample.env "a@b.com" "A B" []
                eq_refl) as [Hc He].
    split; [apply Hc; reflexivity | exact He].
Defined.

(** ** Listing *)

(** C8, as the code has it.  [/getAll] reads no request data and
    answers 200 for every state; each stored user yields an entry with
    the document's [_id] and exactly the paths [fullName], [email] and
    [password], the stored hash included, although a query without
    projection leaves the password out. *)
Theorem getAll_exposes_password D env (st : State) :
  handle D env GetAll st
  = (mkResponse 200
       (JsonUsers
          (List.map
             (fun u => [("_id", Some (_id u));
                        ("fullName", Some (fullName u));
                        ("email", Some (email u));
                        ("password", Some (password u))])
             (users st))),
     st)
  /\ find_all None (users st)
     = List.map
         (fun u => [("_id", Some (_id u));
                    ("fullName", Some (fullName u));
                    ("email", Some (email u));
                    ("imagePath", imagePath u)])
         (users st).
Proof.
  split.
  - destruct st as [us dk]. reflexivity.
  - reflexivity.
Qed.

(** C8 as stated fails: the entry of a stored user is not made of
    [fullName], [email] and [password] alone, it also carries [_id]. *)
Lemma getAll_entry_counterexample :
  fst (getAll [sample_user])
  <> mkResponse 200
       (JsonUsers [[("fullName", Some "A B"); ("email", Some "a@b.com");
                    ("password",
                     Some "$2a$10$s2$$2a$10$s1$Password1!")]])
  /\ fst (getAll [sample_user])
     = mkResponse 200
         (JsonUsers [[("_id", Some "65532ae0c0ffee0000000001");
                      ("fullName", Some "A B"); ("email", Some "a@b.com");
                      ("password",
                       Some "$2a$10$s2$$2a$10$s1$Password1!")]]).
Proof.
  split; [discriminate | reflexivity].
Qed.

(** ** Uploads *)

Lemma upload_catch_not_validation (err : Err) :
  body (upload_catch err) <> JsonError "Validation failed".
Proof.
  unfold upload_catch.
  destruct (includes "Invalid file format" (err_message err)) eqn:Hinc;
    cbn [body]; [| discriminate].
  intros Heq. injection Heq as Heq. rewrite Heq in Hinc. discriminate Hinc.
Qed.

Lemma uploadImage_never_validation D env r st :
  body (fst (uploadImage D env r st)) <> JsonError "Validation failed".
Proof.
  unfold uploadImage.
  destruct (Upload.single (now env) (up_file r) (disk st)) as [[err | file] dk].
  - discriminate.
  - destruct (uploadImage_handler D env (up_email r) file (users st))
      as [res us] eqn:Hh.
    cbn [fst]. unfold uploadImage_handler in Hh.
    destruct (findOne (up_email r) (users st)) as [user |];
      [| injection Hh as <- _; discriminate].
    destruct (truthy (doc_imagePath user));
      [injection Hh as <- _; discriminate |].
    destruct file as [f |].
    + destruct (save D (salt2 env) (set_imagePath (path f) user) (users st));
        injection Hh as <- _;
        [apply upload_catch_not_validation | discriminate].
    + injection Hh as <- _. apply upload_catch_not_validation.
Qed.

(** C10.  An upload request without a file part that names a stored user
    whose [imagePath] is [null] makes the handler read [req.file.path]
    on [undefined]; the [TypeError] reaches the [catch] clause, its
    message does not contain [Invalid file format], and the answer is
    500 [Server error.] with the state unchanged.  No upload request at
    all is answered [Validation failed]. *)
Theorem uploadImage_without_file D env e st d :
  findOne e (users st) = Some d ->
  doc_imagePath d = None ->
  uploadImage D env (mkUpload e None) st
  = (mkResponse 500 (JsonError "Server error."), st)
  /\ includes "Invalid file format"
       (err_message
          (TypeError "Cannot read properties of undefined (reading 'path')"))
     = false
  /\ (forall r st',
         body (fst (uploadImage D env r st'))
         <> JsonError "Validation failed").
Proof.
  intros Hfind Hnull. split; [| split].
  - unfold uploadImage. cbn [up_file up_email Upload.single].
    unfold uploadImage_handler. rewrite Hfind, Hnull. cbn [truthy].
    destruct st; reflexivity.
  - reflexivity.
  - intros r st'. apply uploadImage_never_validation.
Qed.

Lemma uploadImage_without_file_witness :
  uploadImage Sample.deps Sample.env (mkUpload "a@b.com" None)
    {| users := [sample_user]; disk := ∅ |}
  = (mkResponse 500 (JsonError "Server error."),
     {| users := [sample_user]; disk := ∅ |}).
Proof.
  apply (uploadImage_without_file Sample.deps Sample.env "a@b.com"
           {| users := [sample_user]; disk := ∅ |} (load 0 sample_user));
    reflexivity.
Defined.

Lemma fileFilter_cases (file : File) :
  Upload.fileFilter file
  = if Re.test Upload.fileTypes (mimetype file) then inr true
    else inl (Error "Invalid file format. Only JPEG, PNG, and GIF are allowed.").
Proof.
  unfold Upload.fileFilter.
  now destruct (Re.test Upload.fileTypes (mimetype file)).
Qed.

(** ** Saving documents *)

Lemma findOne_Some (e : string) (us : list User) (d : Doc) :
  findOne e us = Some d <->
  exists i u, list_find (fun u => email u = e) us = Some (i, u)
              /\ d = load i u.
Proof.
  unfold findOne.
  destruct (list_find (fun u => email u = e) us) as [[i u] |].
  - split.
    + intros [= <-]. eauto.
    + intros (i' & u' & [= <- <-] & ->). reflexivity.
  - split; [discriminate | intros (i & u & Hfalse & _); discriminate].
Qed.

Lemma findOne_None (e : string) (us : list User) :
  findOne e us = None <-> Forall (fun u => email u <> e) us.
Proof.
  rewrite <- (list_find_None (fun u => email u = e)). unfold findOne.
  destruct (list_find (fun u => email u = e) us) as [[i u] |];
    split; intros H; (discriminate H || reflexivity).
Qed.

Lemma alter_at {A} (f : A -> A) (l : list A) (i : nat) (x : A) :
  l !! i = Some x -> alter f i l = <[i := f x]> l.
Proof.
  revert i. induction l as [| y l IH]; intros [| i] Hi; try discriminate.
  - injection Hi as ->. reflexivity.
  - cbn. f_equal. now apply IH.
Qed.

(** *** Assignments and dirty tracking *)

Lemma isModified_mark (p q : Path) (d : Doc) :
  bool_decide (p ∈ markModified q d)
  = bool_decide (p = q) || isModified p d.
Proof.
  unfold markModified, isModified.
  destruct (bool_decide (q ∈ modified d)) eqn:Hq.
  - apply bool_decide_eq_true in Hq.
    destruct (decide (p = q)) as [-> | Hne].
    + rewrite (bool_decide_eq_true_2 (q = q)) by reflexivity.
      now rewrite bool_decide_eq_true_2.
    + now rewrite (bool_decide_eq_false_2 (p = q)).
  - rewrite <- bool_decide_or. apply bool_decide_ext.
    rewrite elem_of_app, list_elem_of_singleton. tauto.
Qed.

Lemma set_password_fields (v : string) (d : Doc) :
  origin (set_password v d) = origin d
  /\ doc_fullName (set_password v d) = doc_fullName d
  /\ doc_email (set_password v d) = doc_email d
  /\ doc_password (set_password v d) = Some v
  /\ doc_imagePath (set_password v d) = doc_imagePath d.
Proof.
  unfold set_password. case_bool_decide; cbn; auto.
Qed.

Lemma set_password_modified (p : Path) (v : string) (d : Doc) :
  isModified p (set_password v d)
  = isModified p d
    || (bool_decide (p = Ppassword)
        && negb (bool_decide (doc_password d = Some v))).
Proof.
  unfold set_password. case_bool_decide; cbn.
  - now rewrite andb_false_r, orb_false_r.
  - unfold isModified at 1. cbn [modified]. rewrite isModified_mark.
    rewrite andb_true_r. apply orb_comm.
Qed.

Lemma set_fullName_fields (v : string) (d : Doc) :
  origin (set_fullName v d) = origin d
  /\ doc_fullName (set_fullName v d) = v
  /\ doc_email (set_fullName v d) = doc_email d
  /\ doc_password (set_fullName v d) = doc_password d
  /\ doc_imagePath (set_fullName v d) = doc_imagePath d.
Proof.
  unfold set_fullName.
  destruct (String.eqb_spec (doc_fullName d) v); cbn; auto.
Qed.

Lemma set_fullName_modified (p : Path) (v : string) (d : Doc) :
  isModified p (set_fullName v d)
  = isModified p d
    || (bool_decide (p = PfullName) && negb (String.eqb (doc_fullName d) v)).
Proof.
  unfold set_fullName. destruct (String.eqb (doc_fullName d) v); cbn.
  - now rewrite andb_false_r, orb_false_r.
  - unfold isModified at 1. cbn [modified]. rewrite isModified_mark.
    rewrite andb_true_r. apply orb_comm.
Qed.

Lemma set_imagePath_fields (v : string) (d : Doc) :
  origin (set_imagePath v d) = origin d
  /\ doc_fullName (set_imagePath v d) = doc_fullName d
  /\ doc_email (set_imagePath v d) = doc_email d
  /\ doc_password (set_imagePath v d) = doc_password d
  /\ doc_imagePath (set_imagePath v d) = Some v.
Proof.
  unfold set_imagePath. case_bool_decide; cbn; auto.
Qed.

Lemma set_imagePath_modified (p : Path) (v : string) (d : Doc) :
  isModified p (set_imagePath v d)
  = isModified p d
    || (bool_decide (p = PimagePath)
        && negb (bool_decide (doc_imagePath d = Some v))).
Proof.
  unfold set_imagePath. case_bool_decide; cbn.
  - now rewrite andb_false_r, orb_false_r.
  - unfold isModified at 1. cbn [modified]. rewrite isModified_mark.
    rewrite andb_true_r. apply orb_comm.
Qed.

Lemma set_password_id (v : string) (d : Doc) :
  doc_id (set_password v d) = doc_id d.
Proof. unfold set_password. now case_bool_decide. Qed.

Lemma set_fullName_id (v : string) (d : Doc) :
  doc_id (set_fullName v d) = doc_id d.
Proof. unfold set_fullName. now destruct (String.eqb _ _). Qed.

Lemma set_imagePath_id (v : string) (d : Doc) :
  doc_id (set_imagePath v d) = doc_id d.
Proof. unfold set_imagePath. now case_bool_decide. Qed.

Lemma isModified_load (p : Path) (i : nat) (u : User) :
  isModified p (load i u) = false.
Proof.
  unfold isModified. cbn. apply bool_decide_eq_false_2. apply not_elem_of_nil.
Qed.

Section SaveFacts.

Variable D : Deps.

(** The hook on a document whose password was assigned. *)
Lemma pre_save_assigned (salt h : string) (d : Doc) :
  doc_password d = Some h ->
  isModified Ppassword d = true ->
  pre_save D salt d = inr (set_password (bcrypt_hash D h 10 salt) d).
Proof.
  intros Hp Hm. unfold pre_save. now rewrite Hm, Hp.
Qed.

(** The hook leaves a document alone when its password was not. *)
Lemma pre_save_untouched (salt : string) (d : Doc) :
  isModified Ppassword d = false -> pre_save D salt d = inr d.
Proof.
  intros Hm. unfold pre_save. now rewrite Hm.
Qed.

(** Saving a document built by [new User] hashes its password and
    appends it, unless a validator or the unique index objects. *)
Lemma save_new (salt id n e h : string) (us : list User) :
  save D salt (new_User id n e h) us
  = match validate (new_User id n e h) with
    | [] => insertOne D
              {| _id := id; fullName := n; email := e;
                 password := bcrypt_hash D h 10 salt; imagePath := None |}
              us
    | fs => inl (ValidationError fs)
    end.
Proof.
  unfold save. destruct (validate (new_User id n e h)); [| reflexivity].
  rewrite (pre_save_assigned salt h) by reflexivity.
  destruct (set_password_fields (bcrypt_hash D h 10 salt)
              (new_User id n e h)) as (Ho & Hn & He & Hp & Hi).
  rewrite Ho. cbn [origin new_User]. unfold to_user.
  now rewrite set_password_id, Hn, He, Hp, Hi.
Qed.

(** Saving a loaded document after the two assignments of [/edit]. *)
Lemma save_edited (salt n h : string) (i : nat) (u : User)
    (us : list User) :
  us !! i = Some u ->
  save D salt (set_password h (set_fullName n (load i u))) us
  = match validate (set_password h (set_fullName n (load i u))) with
    | [] => inr (<[i := {| _id := _id u; fullName := n; email := email u;
                          password := bcrypt_hash D h 10 salt;
                          imagePath := imagePath u |}]> us)
    | fs => inl (ValidationError fs)
    end.
Proof.
  intros Hi. unfold save.
  set (d1 := set_fullName n (load i u)).
  set (d2 := set_password h d1).
  destruct (validate d2); [| reflexivity].
  destruct (set_fullName_fields n (load i u))
    as (Ho1 & Hn1 & He1 & Hp1 & Hi1). fold d1 in Ho1, Hn1, He1, Hp1, Hi1.
  destruct (set_password_fields h d1) as (Ho2 & Hn2 & He2 & Hp2 & Hi2).
  fold d2 in Ho2, Hn2, He2, Hp2, Hi2.
  assert (Hm2 : isModified Ppassword d2 = true).
  { unfold d2. rewrite set_password_modified, Hp1. cbn [load doc_password].
    rewrite (bool_decide_eq_false_2 (None = Some h)) by discriminate.
    rewrite (bool_decide_eq_true_2 (Ppassword = Ppassword)) by reflexivity.
    apply orb_true_r. }
  rewrite (pre_save_assigned salt h d2 Hp2 Hm2).
  set (d3 := set_password (bcrypt_hash D h 10 salt) d2).
  destruct (set_password_fields (bcrypt_hash D h 10 salt) d2)
    as (Ho3 & Hn3 & He3 & Hp3 & Hi3).
  fold d3 in Ho3, Hn3, He3, Hp3, Hi3.
  rewrite Ho3, Ho2, Ho1. cbn [load origin].
  rewrite (alter_at _ _ _ _ Hi). f_equal. f_equal.
  unfold apply_modified.
  assert (Hm3 : forall p, isModified p d3
                          = isModified p d2
                            || (bool_decide (p = Ppassword)
                                && negb (bool_decide
                                           (doc_password d2
                                            = Some (bcrypt_hash D h 10 salt))))).
  { intros p. apply set_password_modified. }
  assert (Hmp : isModified Ppassword d3 = true).
  { rewrite Hm3, Hm2. reflexivity. }
  assert (Hmo : forall p, p <> Ppassword -> p <> PfullName ->
                          isModified p d3 = false).
  { intros p Hp Hf. rewrite Hm3. unfold d2.
    rewrite set_password_modified. unfold d1.
    rewrite set_fullName_modified, isModified_load.
    rewrite (bool_decide_eq_false_2 (p = Ppassword)) by assumption.
    rewrite (bool_decide_eq_false_2 (p = PfullName)) by assumption.
    reflexivity. }
  rewrite Hmp, Hp3, (Hmo Pemail), (Hmo PimagePath) by discriminate.
  rewrite Hn3, Hn2, Hn1.
  destruct (isModified PfullName d3) eqn:Hmf; [reflexivity |].
  rewrite Hm3 in Hmf. unfold d2 in Hmf.
  rewrite set_password_modified in Hmf. unfold d1 in Hmf.
  rewrite set_fullName_modified, isModified_load in Hmf.
  cbn [load doc_fullName] in Hmf.
  rewrite (bool_decide_eq_true_2 (PfullName = PfullName)) in Hmf
    by reflexivity.
  rewrite (bool_decide_eq_false_2 (PfullName = Ppassword)) in Hmf
    by discriminate.
  cbn in Hmf. rewrite !orb_false_r in Hmf.
  apply negb_false_iff in Hmf. apply String.eqb_eq in Hmf.
  now rewrite Hmf.
Qed.

End SaveFacts.

(** *** Schema validation of the documents the routes save *)

Lemma check_passes (p : Path) (re : Re.regex) (v : string) :
  Re.matches re "" = false -> Re.matches re v = true ->
  Schema.check p (Some re) v = [].
Proof.
  intros Hempty Hv. unfold Schema.check, Schema.required, Schema.match_.
  destruct (String.eqb_spec v "") as [-> | _]; [congruence |].
  cbn. now rewrite Hv.
Qed.

Lemma validate_new_User (id n e h : string) :
  Validator.fullName_matches n = true ->
  Schema.email_matches e = true ->
  h <> "" ->
  validate (new_User id n e h) = [].
Proof.
  intros Hn He Hh. unfold validate. cbn [new_User doc_fullName doc_email
                                          doc_password origin].
  rewrite (check_passes PfullName) by (reflexivity || assumption).
  rewrite (check_passes Pemail) by (reflexivity || assumption).
  unfold Schema.check, Schema.required.
  apply String.eqb_neq in Hh. now rewrite Hh.
Qed.

Lemma validate_edited (n h : string) (i : nat) (u : User) :
  Validator.fullName_matches n = true ->
  Schema.email_matches (email u) = true ->
  h <> "" ->
  validate (set_password h (set_fullName n (load i u))) = [].
Proof.
  intros Hn He Hh. unfold validate.
  destruct (set_fullName_fields n (load i u)) as (_ & Hn1 & He1 & _ & _).
  destruct (set_password_fields h (set_fullName n (load i u)))
    as (_ & Hn2 & He2 & Hp2 & _).
  rewrite Hn2, He2, Hp2, Hn1, He1. cbn [load doc_email].
  rewrite (check_passes PfullName) by (reflexivity || assumption).
  rewrite (check_passes Pemail) by (reflexivity || assumption).
  unfold Schema.check, Schema.required.
  apply String.eqb_neq in Hh. now rewrite Hh.
Qed.

Lemma validate_uploaded (p : string) (i : nat) (u : User) :
  well_formed u -> validate (set_imagePath p (load i u)) = [].
Proof.
  intros [Hn He]. unfold validate.
  destruct (set_imagePath_fields p (load i u)) as (Ho & Hn1 & He1 & Hp1 & _).
  rewrite Ho, Hn1, He1, Hp1. cbn [load doc_fullName doc_email doc_password
                                    origin].
  rewrite (check_passes PfullName) by (reflexivity || assumption).
  rewrite (check_passes Pemail) by (reflexivity || assumption).
  reflexivity.
Qed.

(** ** Password hashing on create and edit *)

Lemma edit_password_modified (n h : string) (i : nat) (u : User) :
  isModified Ppassword (set_password h (set_fullName n (load i u))) = true.
Proof.
  rewrite set_password_modified.
  destruct (set_fullName_fields n (load i u)) as (_ & _ & _ & Hp & _).
  rewrite Hp. cbn [load doc_password].
  rewrite (bool_decide_eq_false_2 (None = Some h)) by discriminate.
  rewrite (bool_decide_eq_true_2 (Ppassword = Ppassword)) by reflexivity.
  apply orb_true_r.
Qed.

Lemma createUser_saved D env b us :
  status (fst (createUser D env b us)) = 201 ->
  snd (createUser D env b us) = us ++ [new_document D env b].
Proof.
  unfold createUser.
  destruct (create_valid D b); cbn [negb]; [| discriminate].
  destruct (findOne (normalizeEmail D (req_email b)) us); [discriminate |].
  rewrite save_new.
  destruct (validate _); [| discriminate].
  unfold insertOne. do 2 (case_bool_decide; [discriminate |]).
  reflexivity.
Qed.

Lemma editUser_saved D env b us :
  status (fst (editUser D env b us)) = 200 ->
  exists i u,
    list_find (fun u => email u = req_email b) us = Some (i, u)
    /\ snd (editUser D env b us) = <[i := edited_document D env b u]> us.
Proof.
  unfold editUser.
  destruct (edit_valid b); cbn [negb]; [| discriminate].
  destruct (findOne (req_email b) us) as [d |] eqn:Hfind; [| discriminate].
  apply findOne_Some in Hfind as (i & u & Hfind & ->).
  pose proof Hfind as Hlook. apply list_find_Some in Hlook as (Hlook & _).
  rewrite (save_edited D _ _ _ _ _ _ Hlook).
  destruct (validate _); [| discriminate].
  intros _. exists i, u. split; [assumption | reflexivity].
Qed.

(** When a create request is saved. *)
Lemma createUser_succeeds D env b us :
  create_valid D b = true ->
  Schema.email_matches (normalizeEmail D (req_email b)) = true ->
  Forall (fun u => email u <> normalizeEmail D (req_email b)) us ->
  Forall (fun u => _id u <> objectId env) us ->
  bcrypt_hash D (req_password b) 10 (salt1 env) <> "" ->
  createUser D env b us
  = (mkResponse 201 (JsonMessage "User created successfully"),
     us ++ [new_document D env b]).
Proof.
  intros Hvalid Hshape Hfresh Hid Hne.
  unfold createUser. rewrite Hvalid. cbn [negb].
  pose proof Hfresh as Hnone. apply findOne_None in Hnone.
  rewrite Hnone, save_new.
  unfold create_valid in Hvalid.
  apply andb_true_iff in Hvalid as [Hvalid _].
  apply andb_true_iff in Hvalid as [_ Hname].
  rewrite validate_new_User by assumption.
  unfold insertOne. cbn [_id email].
  rewrite bool_decide_eq_false_2.
  2:{ rewrite Exists_exists. intros (u & Hin & Hu).
      rewrite Forall_forall in Hid. exact (Hid u Hin Hu). }
  rewrite bool_decide_eq_false_2; [reflexivity |].
  rewrite Exists_exists. intros (u & Hin & Hu).
  rewrite Forall_forall in Hfresh. exact (Hfresh u Hin Hu).
Qed.

(** When an edit request is saved. *)
Lemma editUser_succeeds D env b us i u :
  edit_valid b = true ->
  list_find (fun u => email u = req_email b) us = Some (i, u) ->
  Schema.email_matches (email u) = true ->
  bcrypt_hash D (req_password b) 10 (salt1 env) <> "" ->
  editUser D env b us
  = (mkResponse 200 (JsonMessage "User updated successfully."),
     <[i := edited_document D env b u]> us).
Proof.
  intros Hvalid Hfind Hshape Hhash.
  unfold editUser, findOne. rewrite Hvalid, Hfind. cbn [negb].
  pose proof Hfind as Hlook. apply list_find_Some in Hlook as (Hi & _).
  rewrite (save_edited D _ _ _ _ _ _ Hi).
  unfold edit_valid in Hvalid.
  apply andb_true_iff in Hvalid as [Hname _].
  now rewrite validate_edited.
Qed.

(** C1.  A create request that is saved (answer 201) stores the hash of
    the hash of the submitted password: the handler hashes once, the
    [pre('save')] hook sees the password of the new document as
    modified and hashes again.  The same holds for an edit request that
    is saved (answer 200): the password assigned to the loaded document
    counts as modified.  An edit request is saved whenever it passes
    validation and finds a user whose stored email has the schema's
    shape, the first hash not being empty; it then replaces the stored
    password by the twice-hashed one. *)
Theorem password_hashed_twice D env b us :
  (status (fst (createUser D env b us)) = 201 ->
   snd (createUser D env b us)
   = us ++ [{| _id := objectId env;
               fullName := req_fullName b;
               email := normalizeEmail D (req_email b);
               password :=
                 bcrypt_hash D
                   (bcrypt_hash D (req_password b) 10 (salt1 env))
                   10 (salt2 env);
               imagePath := None |}])
  /\ (status (fst (editUser D env b us)) = 200 ->
      exists i u,
        list_find (fun u => email u = req_email b) us = Some (i, u)
        /\ snd (editUser D env b us)
           = <[i := {| _id := _id u;
                       fullName := req_fullName b;
                       email := email u;
                       password :=
                         bcrypt_hash D
                           (bcrypt_hash D (req_password b) 10 (salt1 env))
                           10 (salt2 env);
                       imagePath := imagePath u |}]> us)
  /\ (forall i u,
         edit_valid b = true ->
         list_find (fun u => email u = req_email b) us = Some (i, u) ->
         Schema.email_matches (email u) = true ->
         bcrypt_hash D (req_password b) 10 (salt1 env) <> "" ->
         editUser D env b us
         = (mkResponse 200 (JsonMessage "User updated successfully."),
            <[i := {| _id := _id u;
                      fullName := req_fullName b;
                      email := email u;
                      password :=
                        bcrypt_hash D
                          (bcrypt_hash D (req_password b) 10 (salt1 env))
                          10 (salt2 env);
                      imagePath := imagePath u |}]> us))
  /\ (forall id n e h, isModified Ppassword (new_User id n e h) = true)
  /\ (forall n h i u,
         isModified Ppassword (set_password h (set_fullName n (load i u)))
         = true).
Proof.
  split; [apply createUser_saved |].
  split; [apply editUser_saved |].
  split; [intros i u; apply editUser_succeeds |].
  split; [reflexivity | intros; apply edit_password_modified].
Qed.

Lemma password_hashed_twice_witness :
  snd (createUser Sample.deps Sample.env sample_body [other_user])
  = [other_user;
     {| _id := "65532ae0c0ffee0000000001";
        fullName := "A B"; email := "a@b.com";
        password := Sample.hash (Sample.hash "Password1!" 10 "s1") 10 "s2";
        imagePath := None |}]
  /\ (exists i u,
        list_find (fun u => email u = "a@b.com") [other_user; sample_user]
        = Some (i, u)
        /\ snd (editUser Sample.deps Sample.env edit_body
                  [other_user; sample_user])
           = <[i := {| _id := _id u;
                       fullName := "C D"; email := email u;
                       password :=
                         Sample.hash (Sample.hash "Password2!" 10 "s1")
                           10 "s2";
                       imagePath := imagePath u |}]>
               [other_user; sample_user])
  /\ editUser Sample.deps Sample.env edit_body [other_user; sample_user]
     = (mkResponse 200 (JsonMessage "User updated successfully."),
        [other_user; edited_user])
  /\ edited_user <> sample_user.
Proof.
  split; [| split; [| split]].
  - apply (password_hashed_twice Sample.deps Sample.env sample_body
             [other_user]).
    reflexivity.
  - apply (password_hashed_twice Sample.deps Sample.env edit_body
             [other_user; sample_user]).
    reflexivity.
  - destruct (password_hashed_twice Sample.deps Sample.env edit_body
                [other_user; sample_user]) as (_ & _ & Hedit & _).
    apply (Hedit 1 sample_user); (reflexivity || discriminate).
  - discriminate.
Defined.

(** ** Duplicate and unknown emails *)

Lemma findOne_is_Some (e : string) (us : list User) :
  Exists (fun u => email u = e) us -> exists d, findOne e us = Some d.
Proof.
  intros Hex. destruct (findOne e us) as [d |] eqn:Hfind; [eauto |].
  apply findOne_None in Hfind. apply Exists_exists in Hex as (u & Hin & Hu).
  rewrite Forall_forall in Hfind. now destruct (Hfind u Hin).
Qed.

(** C3, as the code has it.  A create request whose email, once
    normalized by the validator chain, is the email of a stored user
    leaves the collection as it is and is answered 400: with
    [Email already registered] when the payload passes validation, with
    [Validation failed] when it does not. *)
Theorem create_duplicate_rejected D env b us :
  Exists (fun u => email u = normalizeEmail D (req_email b)) us ->
  createUser D env b us
  = (if create_valid D b
     then mkResponse 400 (JsonError "Email already registered")
     else validation_failed,
     us).
Proof.
  intros Hex. unfold createUser.
  destruct (create_valid D b); cbn [negb]; [| reflexivity].
  destruct (findOne_is_Some _ _ Hex) as [d ->]. reflexivity.
Qed.

Lemma create_duplicate_rejected_witness :
  createUser Sample.deps Sample.env sample_body [sample_user]
  = (mkResponse 400 (JsonError "Email already registered"), [sample_user]).
Proof.
  apply (create_duplicate_rejected Sample.deps Sample.env sample_body
           [sample_user]).
  apply Exists_cons_hd. reflexivity.
Defined.

(** C3 as stated fails: with a registered email and the password
    [password1] the answer carries [Validation failed]. *)
Lemma create_duplicate_counterexample :
  Exists (fun u => email u = "a@b.com") [sample_user]
  /\ fst (createUser Sample.deps Sample.env
            {| req_email := "a@b.com"; req_fullName := "A B";
               req_password := "password1" |}
            [sample_user])
     <> mkResponse 400 (JsonError "Email already registered").
Proof.
  split; [apply Exists_cons_hd; reflexivity | discriminate].
Qed.

(** C7, as the code has it.  An edit request whose email is the email of
    no stored user leaves the collection as it is; it is answered 404
    when the payload passes validation and 400 when it does not. *)
Theorem edit_unknown_email D env b us :
  Forall (fun u => email u <> req_email b) us ->
  editUser D env b us
  = (if edit_valid b
     then mkResponse 404 (JsonError "User not found")
     else validation_failed,
     us).
Proof.
  intros Hall. unfold editUser.
  destruct (edit_valid b); cbn [negb]; [| reflexivity].
  apply findOne_None in Hall. now rewrite Hall.
Qed.

Lemma edit_unknown_email_witness :
  editUser Sample.deps Sample.env
    {| req_email := "nobody@b.com"; req_fullName := "A B";
       req_password := "Password1!" |}
    [sample_user]
  = (mkResponse 404 (JsonError "User not found"), [sample_user]).
Proof.
  apply (edit_unknown_email Sample.deps Sample.env
           {| req_email := "nobody@b.com"; req_fullName := "A B";
              req_password := "Password1!" |}
           [sample_user]).
  constructor; [discriminate | constructor].
Defined.

(** C7 as stated fails: an edit request for an unknown email with the
    password [password1] is answered 400, not 404. *)
Lemma edit_unknown_counterexample :
  Forall (fun u => email u <> "nobody@b.com") [sample_user]
  /\ fst (editUser Sample.deps Sample.env
            {| req_email := "nobody@b.com"; req_fullName := "A B";
               req_password := "password1" |}
            [sample_user])
     = mkResponse 400 (JsonError "Validation failed")
  /\ status (mkResponse 400 (JsonError "Validation failed")) <> 404.
Proof.
  split; [constructor; [discriminate | constructor] |].
  split; [reflexivity | discriminate].
Qed.

(** ** Creating a user *)

Lemma count_email_fresh (e : string) (us : list User) :
  Forall (fun u => email u <> e) us -> count_email e us = 0.
Proof.
  unfold count_email. induction 1 as [| u us Hu _ IH]; [reflexivity |].
  cbn. apply String.eqb_neq in Hu. now rewrite Hu.
Qed.

Lemma count_email_app (e : string) (us vs : list User) :
  count_email e (us ++ vs) = count_email e us + count_email e vs.
Proof.
  unfold count_email. now rewrite List.filter_app, length_app.
Qed.

(** C6, as the code has it.  A create request with a valid payload (an
    address the validator accepts and whose normal form has the shape
    the schema asks for, a full name of letters and white space, a
    strong password) and an email not yet registered is answered 201,
    the identifier drawn for the document being unused and the hash of
    the password not empty; afterwards exactly one document has that
    email, and its password is the twice-hashed value, which differs
    from the submitted text as long as hashing twice does not give the
    text back. *)
Theorem create_fresh_user D env b us :
  let e := normalizeEmail D (req_email b) in
  create_valid D b = true ->
  Schema.email_matches e = true ->
  Forall (fun u => email u <> e) us ->
  Forall (fun u => _id u <> objectId env) us ->
  bcrypt_hash D (req_password b) 10 (salt1 env) <> "" ->
  double_hash D env (req_password b) <> req_password b ->
  exists u,
    createUser D env b us
    = (mkResponse 201 (JsonMessage "User created successfully"), us ++ [u])
    /\ email u = e
    /\ count_email e (us ++ [u]) = 1
    /\ password u = double_hash D env (req_password b)
    /\ password u <> req_password b.
Proof.
  intros e Hvalid Hshape Hfresh Hid Hne Hdiff.
  exists (new_document D env b).
  split; [| split; [reflexivity |]].
  2: split; [| split; [reflexivity | exact Hdiff]].
  - now apply createUser_succeeds.
  - rewrite count_email_app, count_email_fresh by assumption.
    unfold count_email. cbn. fold e. now rewrite String.eqb_refl.
Qed.

Lemma create_fresh_user_witness :
  exists u,
    createUser Sample.deps Sample.env sample_body [other_user]
    = (mkResponse 201 (JsonMessage "User created successfully"),
       [other_user] ++ [u])
    /\ email u = "a@b.com"
    /\ count_email "a@b.com" ([other_user] ++ [u]) = 1
    /\ password u = double_hash Sample.deps Sample.env "Password1!"
    /\ password u <> "Password1!".
Proof.
  apply (create_fresh_user Sample.deps Sample.env sample_body [other_user]).
  - reflexivity.
  - reflexivity.
  - constructor; [discriminate | constructor].
  - constructor; [discriminate | constructor].
  - discriminate.
  - discriminate.
Defined.

(** C6 as stated fails: an address with a quoted local part that holds
    a space passes the validator chain, the other fields are valid and
    the email is not registered, yet the schema's pattern refuses the
    address when the document is saved: the answer is 500 and nothing
    is stored. *)
Lemma create_quoted_counterexample :
  create_valid Sample.deps_quoted quoted_body = true
  /\ Forall (fun u => email u
                      <> normalizeEmail Sample.deps_quoted
                           (req_email quoted_body))
       [other_user]
  /\ status (fst (createUser Sample.deps_quoted Sample.env quoted_body
                    [other_user]))
     = 500
  /\ snd (createUser Sample.deps_quoted Sample.env quoted_body [other_user])
     = [other_user].
Proof.
  split; [reflexivity |].
  split; [constructor; [discriminate | constructor] |].
  split; reflexivity.
Qed.

(** ** Email normalization across the routes *)

Lemma createUser_201_valid D env b us :
  status (fst (createUser D env b us)) = 201 -> create_valid D b = true.
Proof.
  unfold createUser. destruct (create_valid D b); [reflexivity | discriminate].
Qed.

(** C2.  [/create] and [/delete] look the user up under the normalized
    email; [/edit] and [/uploadImage] use the email as sent.  So after a
    user was created from an address that normalization changes, an
    edit or an upload that sends the very same address finds nobody and
    is answered 404, whereas a second create is refused as a duplicate
    and a delete succeeds. *)
Theorem edit_and_upload_skip_normalization D env env' b us dk :
  let us' := snd (createUser D env b us) in
  Forall (fun u => email u <> req_email b) us ->
  status (fst (createUser D env b us)) = 201 ->
  normalizeEmail D (req_email b) <> req_email b ->
  editUser D env' b us'
  = (mkResponse 404 (JsonError "User not found"), us')
  /\ fst (uploadImage D env' (mkUpload (req_email b) None)
            {| users := us'; disk := dk |})
     = mkResponse 404 (JsonError "User not found.")
  /\ fst (createUser D env' b us')
     = mkResponse 400 (JsonError "Email already registered")
  /\ fst (deleteUser D b us')
     = mkResponse 200 (JsonMessage "User deletion successful.").
Proof.
  intros us' Hraw H201 Hnorm.
  pose proof (createUser_201_valid _ _ _ _ H201) as Hvalid.
  pose proof (createUser_saved _ _ _ _ H201) as Hsaved. fold us' in Hsaved.
  assert (Hnone : findOne (req_email b) us' = None).
  { apply findOne_None. rewrite Hsaved. apply Forall_app. split; [exact Hraw |].
    constructor; [exact Hnorm | constructor]. }
  assert (Hsome : exists d,
             findOne (normalizeEmail D (req_email b)) us' = Some d).
  { apply findOne_is_Some. rewrite Hsaved. apply Exists_app. right.
    apply Exists_cons_hd. reflexivity. }
  destruct Hsome as [d Hd].
  pose proof Hvalid as Hparts. unfold create_valid in Hparts.
  apply andb_true_iff in Hparts as [Hparts Hpw].
  apply andb_true_iff in Hparts as [Hmail Hname].
  repeat split.
  - unfold editUser, edit_valid. rewrite Hname, Hpw, Hnone. reflexivity.
  - unfold uploadImage, uploadImage_handler. cbn. now rewrite Hnone.
  - unfold createUser. now rewrite Hvalid, Hd.
  - unfold deleteUser, delete_valid. now rewrite Hmail, Hd.
Qed.

Lemma edit_and_upload_skip_normalization_witness :
  snd (createUser Sample.deps Sample.env mixed_case_body []) = [sample_user]
  /\ editUser Sample.deps Sample.env mixed_case_body [sample_user]
     = (mkResponse 404 (JsonError "User not found"), [sample_user])
  /\ fst (uploadImage Sample.deps Sample.env (mkUpload "A@B.com" None)
            {| users := [sample_user]; disk := ∅ |})
     = mkResponse 404 (JsonError "User not found.")
  /\ fst (createUser Sample.deps Sample.env mixed_case_body [sample_user])
     = mkResponse 400 (JsonError "Email already registered")
  /\ fst (deleteUser Sample.deps mixed_case_body [sample_user])
     = mkResponse 200 (JsonMessage "User deletion successful.").
Proof.
  split; [reflexivity |].
  apply (edit_and_upload_skip_normalization Sample.deps Sample.env Sample.env
           mixed_case_body [] ∅).
  - constructor.
  - reflexivity.
  - discriminate.
Defined.

(** ** The life of [imagePath] *)

Lemma save_uploaded D (salt p : string) (i : nat) (u : User)
    (us : list User) :
  us !! i = Some u ->
  save D salt (set_imagePath p (load i u)) us
  = match validate (set_imagePath p (load i u)) with
    | [] => inr (<[i := with_imagePath p u]> us)
    | fs => inl (ValidationError fs)
    end.
Proof.
  intros Hi. unfold save.
  set (d := set_imagePath p (load i u)).
  destruct (validate d); [| reflexivity].
  destruct (set_imagePath_fields p (load i u)) as (Ho & Hn & He & Hp & Him).
  fold d in Ho, Hn, He, Hp, Him.
  assert (Hm : forall q, q <> PimagePath -> isModified q d = false).
  { intros q Hq. unfold d. rewrite set_imagePath_modified, isModified_load.
    now rewrite (bool_decide_eq_false_2 (q = PimagePath)). }
  rewrite pre_save_untouched by (apply Hm; discriminate).
  rewrite Ho. cbn [load origin]. rewrite (alter_at _ _ _ _ Hi).
  f_equal. f_equal. unfold apply_modified, with_imagePath.
  rewrite (Hm PfullName), (Hm Pemail), Hp by discriminate.
  cbn [load doc_password]. rewrite Him.
  destruct (isModified PimagePath d) eqn:Hmi; [reflexivity |].
  unfold d in Hmi. rewrite set_imagePath_modified, isModified_load in Hmi.
  rewrite (bool_decide_eq_true_2 (PimagePath = PimagePath)) in Hmi
    by reflexivity.
  cbn in Hmi. apply negb_false_iff, bool_decide_eq_true in Hmi.
  cbn in Hmi. now rewrite Hmi.
Qed.

(** The handler of [/uploadImage], case by case. *)
Lemma uploadImage_handler_cases D env e file us :
  uploadImage_handler D env e file us
  = match list_find (fun u => email u = e) us with
    | None => (mkResponse 404 (JsonError "User not found."), us)
    | Some (i, u) =>
        if truthy (imagePath u)
        then (mkResponse 400 (JsonError "Image already exists for this user."),
              us)
        else
          match file with
          | None =>
              (upload_catch
                 (TypeError
                    "Cannot read properties of undefined (reading 'path')"),
               us)
          | Some f =>
              match validate (set_imagePath (path f) (load i u)) with
              | [] =>
                  (mkResponse 201
                     (JsonUpload "Image uploaded successfully."
                        ("/images/" ++ filename f)%string),
                   <[i := with_imagePath (path f) u]> us)
              | fs => (upload_catch (ValidationError fs), us)
              end
          end
    end.
Proof.
  unfold uploadImage_handler, findOne.
  destruct (list_find (fun u => email u = e) us) as [[i u] |] eqn:Hfind;
    [| reflexivity].
  cbn [load doc_imagePath]. destruct (truthy (imagePath u)); [reflexivity |].
  destruct file as [f |]; [| reflexivity].
  apply list_find_Some in Hfind as (Hi & _).
  rewrite (save_uploaded D _ _ _ _ _ Hi).
  now destruct (validate _).
Qed.

Lemma upload_catch_status (err : Err) : status (upload_catch err) <> 201.
Proof.
  unfold upload_catch. now destruct (includes _ _).
Qed.

Lemma createUser_unsaved D env b us :
  status (fst (createUser D env b us)) <> 201 ->
  snd (createUser D env b us) = us.
Proof.
  unfold createUser.
  destruct (create_valid D b); cbn [negb]; [| reflexivity].
  destruct (findOne (normalizeEmail D (req_email b)) us); [reflexivity |].
  destruct (save D (salt2 env) _ us); [reflexivity |].
  intros H. now destruct H.
Qed.

Lemma editUser_unsaved D env b us :
  status (fst (editUser D env b us)) <> 200 ->
  snd (editUser D env b us) = us.
Proof.
  unfold editUser.
  destruct (edit_valid b); cbn [negb]; [| reflexivity].
  destruct (findOne (req_email b) us); [| reflexivity].
  destruct (save D (salt2 env) _ us); [reflexivity |].
  intros H. now destruct H.
Qed.

Lemma deleteUser_kept D b us :
  status (fst (deleteUser D b us)) <> 200 ->
  snd (deleteUser D b us) = us.
Proof.
  unfold deleteUser.
  destruct (delete_valid D b); cbn [negb]; [| reflexivity].
  destruct (findOne (normalizeEmail D (req_email b)) us); [| reflexivity].
  intros H. now destruct H.
Qed.

Lemma uploadImage_unsaved D env q st :
  status (fst (uploadImage D env q st)) <> 201 ->
  users (snd (uploadImage D env q st)) = users st.
Proof.
  unfold uploadImage.
  destruct (Upload.single (now env) (up_file q) (disk st))
    as [[err | file] dk]; [reflexivity |].
  rewrite uploadImage_handler_cases.
  destruct (list_find (fun u => email u = up_email q) (users st))
    as [[i u] |]; [| reflexivity].
  destruct (truthy (imagePath u)); [reflexivity |].
  destruct file as [f |]; [| reflexivity].
  destruct (validate _); [| reflexivity].
  intros H. now destruct H.
Qed.

Lemma createUser_step D env b us :
  users_step us (snd (createUser D env b us)).
Proof.
  unfold createUser.
  destruct (create_valid D b); cbn [negb]; [| apply step_same].
  destruct (findOne (normalizeEmail D (req_email b)) us) eqn:Hfind;
    [apply step_same |].
  rewrite save_new. destruct (validate _); [| apply step_same].
  unfold insertOne. do 2 (case_bool_decide; [apply step_same |]).
  cbn [snd]. apply step_insert; [| reflexivity].
  now apply findOne_None in Hfind.
Qed.

Lemma editUser_step D env b us :
  users_step us (snd (editUser D env b us)).
Proof.
  unfold editUser.
  destruct (edit_valid b); cbn [negb]; [| apply step_same].
  destruct (findOne (req_email b) us) as [d |] eqn:Hfind; [| apply step_same].
  apply findOne_Some in Hfind as (i & u & Hfind & ->).
  apply list_find_Some in Hfind as (Hi & _).
  rewrite (save_edited D _ _ _ _ _ _ Hi).
  destruct (validate _); [| apply step_same].
  cbn [snd]. apply (step_update us i u); auto.
Qed.

Lemma deleteUser_step D b us :
  users_step us (snd (deleteUser D b us)).
Proof.
  unfold deleteUser.
  destruct (delete_valid D b); cbn [negb]; [| apply step_same].
  destruct (findOne (normalizeEmail D (req_email b)) us) as [d |] eqn:Hfind;
    [| apply step_same].
  apply findOne_Some in Hfind as (i & u & _ & ->).
  cbn. apply step_delete.
Qed.

Lemma uploadImage_handler_step D env e file us :
  users_step us (snd (uploadImage_handler D env e file us)).
Proof.
  rewrite uploadImage_handler_cases.
  destruct (list_find (fun u => email u = e) us) as [[i u] |] eqn:Hfind;
    [| apply step_same].
  destruct (truthy (imagePath u)) eqn:Htruthy; [apply step_same |].
  destruct file as [f |]; [| apply step_same].
  destruct (validate _); [| apply step_same].
  apply list_find_Some in Hfind as (Hi & _).
  cbn [snd]. apply (step_update us i u); auto.
Qed.

Lemma uploadImage_users D env r st :
  users (snd (uploadImage D env r st))
  = users st
  \/ users (snd (uploadImage D env r st))
     = snd (uploadImage_handler D env (up_email r)
              (match fst (Upload.single (now env) (up_file r) (disk st)) with
               | inr file => file
               | inl _ => None
               end)
              (users st)).
Proof.
  unfold uploadImage.
  destruct (Upload.single (now env) (up_file r) (disk st))
    as [[err | file] dk]; [left; reflexivity |].
  right. cbn [fst].
  now destruct (uploadImage_handler D env (up_email r) file (users st)).
Qed.

Lemma handle_users_step D env r st :
  users_step (users st) (users (snd (handle D env r st))).
Proof.
  destruct r as [b | b | b | | u]; cbn.
  - apply createUser_step.
  - apply editUser_step.
  - apply deleteUser_step.
  - apply step_same.
  - destruct (uploadImage_users D env u st) as [-> | ->];
      [apply step_same | apply uploadImage_handler_step].
Qed.

Lemma unique_emails_same (us : list User) (u v : User) :
  unique_emails us -> u ∈ us -> v ∈ us -> email u = email v -> u = v.
Proof.
  intros Hnd Hu Hv Heq.
  apply list_elem_of_lookup_1 in Hu as [i Hi].
  apply list_elem_of_lookup_1 in Hv as [j Hj].
  assert (i = j) as ->.
  { apply (NoDup_lookup (email <$> us) i j (email u) Hnd).
    - now rewrite list_lookup_fmap, Hi.
    - now rewrite list_lookup_fmap, Hj, Heq. }
  congruence.
Qed.

(** The unique index holds along every transition. *)
Lemma users_step_unique (us us' : list User) :
  users_step us us' -> unique_emails us -> unique_emails us'.
Proof.
  unfold unique_emails.
  intros [| u Hfresh _ | i u u' Hi Hemail _ | i] Hnd.
  - assumption.
  - rewrite fmap_app. apply NoDup_app. split; [assumption |]. split.
    + intros e He Hin. apply list_elem_of_singleton in Hin. subst e.
      apply list_elem_of_fmap in He as (v & Hev & Hv).
      rewrite Forall_forall in Hfresh. now apply (Hfresh v Hv).
    + apply NoDup_singleton.
  - rewrite list_fmap_insert, Hemail, list_insert_id; [assumption |].
    now rewrite list_lookup_fmap, Hi.
  - rewrite list_fmap_delete.
    apply (sublist_NoDup _ (email <$> us)); [assumption |].
    apply sublist_delete.
Qed.

(** Once set, the [imagePath] of a stored user is the same after any
    transition, as long as the user is still stored. *)
Lemma users_step_imagePath (us us' : list User) (u v : User) :
  users_step us us' -> unique_emails us ->
  u ∈ us -> truthy (imagePath u) = true ->
  v ∈ us' -> email v = email u ->
  imagePath v = imagePath u.
Proof.
  intros [| x Hfresh Hnull | i x x' Hi Hemail Himg | i] Hnd Hu Hset Hv Heq.
  - now rewrite (unique_emails_same us v u).
  - apply elem_of_app in Hv as [Hv | Hv].
    + now rewrite (unique_emails_same us v u).
    + apply list_elem_of_singleton in Hv. subst v.
      rewrite Forall_forall in Hfresh. now destruct (Hfresh u Hu).
  - apply list_elem_of_lookup_1 in Hv as [j Hj].
    apply list_lookup_insert_Some in Hj as [(-> & -> & _) | (_ & Hj)].
    + assert (x = u) as ->.
      { apply (unique_emails_same us); auto.
        - now apply list_elem_of_lookup_2 in Hi.
        - congruence. }
      destruct Himg as [Himg | Himg]; congruence.
    + apply list_elem_of_lookup_2 in Hj.
      now rewrite (unique_emails_same us v u).
  - apply list_elem_of_delete_inv in Hv.
    now rewrite (unique_emails_same us v u).
Qed.

Lemma reachable_unique D st : reachable D st -> unique_emails (users st).
Proof.
  induction 1 as [| st env r _ IH].
  - apply NoDup_nil_2.
  - exact (users_step_unique _ _ (handle_users_step D env r st) IH).
Qed.

(** What the middleware does with a file part, case by case. *)
Lemma single_cases now (f : File) (dk : gmap string string) :
  Upload.single now (Some f) dk
  = if String.eqb (originalname f) "" then (inr None, dk)
    else if negb (String.eqb (fieldname f) "image")
    then (inl (MulterError "LIMIT_UNEXPECTED_FILE" "Unexpected field"), dk)
    else if negb (Re.test Upload.fileTypes (mimetype f))
    then (inl (Error
                 "Invalid file format. Only JPEG, PNG, and GIF are allowed."),
          dk)
    else if (Upload.fileSize <=? size f)%N
    then (inl (MulterError "LIMIT_FILE_SIZE" "File too large"),
          delete (path (stored_file now f)) dk)
    else (inr (Some (stored_file now f)),
          <[path (stored_file now f) := data f]> dk).
Proof.
  unfold Upload.single. rewrite fileFilter_cases.
  destruct (String.eqb (originalname f) ""); [reflexivity |].
  destruct (String.eqb (fieldname f) "image"); [| reflexivity].
  destruct (Re.test Upload.fileTypes (mimetype f)); reflexivity.
Qed.

Lemma single_accepted now (f : File) (dk : gmap string string) :
  stores_file f = true ->
  Upload.single now (Some f) dk
  = (inr (Some (stored_file now f)),
     <[path (stored_file now f) := data f]> dk).
Proof.
  unfold stores_file, middleware_rejects. intros Hok.
  apply andb_true_iff in Hok as [Hok Hrej].
  apply andb_true_iff in Hok as [Hname Hfield].
  apply negb_true_iff in Hname, Hrej.
  apply orb_false_iff in Hrej as [Hty Hsz].
  rewrite single_cases. now rewrite Hname, Hfield, Hty, Hsz.
Qed.

Lemma single_accepts now part (dk dk' : gmap string string) file :
  Upload.single now part dk = (inr file, dk') ->
  (file = None /\ dk' = dk)
  \/ exists f0,
       part = Some f0
       /\ file = Some {| path := (Upload.destination
                                  ++ Upload.make_filename now f0)%string;
                         filename := Upload.make_filename now f0 |}
       /\ dk' = <[(Upload.destination ++ Upload.make_filename now f0)%string
                  := data f0]> dk.
Proof.
  destruct part as [f0 |]; [| intros [= <- <-]; now left].
  rewrite single_cases.
  destruct (String.eqb (originalname f0) ""); [intros [= <- <-]; now left |].
  destruct (String.eqb (fieldname f0) "image"); cbn [negb]; [| discriminate].
  destruct (Re.test Upload.fileTypes (mimetype f0)); cbn [negb];
    [| discriminate].
  destruct (Upload.fileSize <=? size f0)%N; [discriminate |].
  intros [= <- <-]. right. exists f0. auto.
Qed.

(** Which requests the middleware lets through to the handler, and
    with what [req.file]. *)
Lemma single_lets_through now part (dk : gmap string string) file :
  fst (Upload.single now part dk) = inr file <->
  (part = None /\ file = None)
  \/ exists f,
       part = Some f
       /\ ((originalname f = "" /\ file = None)
           \/ (stores_file f = true /\ file = Some (stored_file now f))).
Proof.
  destruct part as [f |].
  2:{ cbn [Upload.single fst]. split.
      - intros [= <-]. now left.
      - intros [[_ ->] | (f & Hf & _)]; [reflexivity | discriminate]. }
  split.
  - intros H. right. exists f. split; [reflexivity |]. revert H.
    rewrite single_cases. unfold stores_file, middleware_rejects.
    destruct (String.eqb_spec (originalname f) "") as [Hname | Hname];
      cbn [negb andb fst]; [intros [= <-]; now left |].
    destruct (String.eqb (fieldname f) "image"); cbn [negb andb fst];
      [| discriminate].
    destruct (Re.test Upload.fileTypes (mimetype f)); cbn [negb orb fst];
      [| discriminate].
    destruct (Upload.fileSize <=? size f)%N; cbn [negb fst];
      [discriminate |].
    intros [= <-]. now right.
  - intros [[Hf _] | (f' & [= <-] & [[Hn ->] | [Hok ->]])]; [discriminate | |].
    + rewrite single_cases, Hn. reflexivity.
    + now rewrite (single_accepted _ _ _ Hok).
Qed.

Lemma uploadImage_201_file D env q st :
  status (fst (uploadImage D env q st)) = 201 ->
  exists f, up_file q = Some f /\ stores_file f = true.
Proof.
  unfold uploadImage.
  destruct (Upload.single (now env) (up_file q) (disk st))
    as [[err | file] dk] eqn:Hsingle; [discriminate |].
  assert (Hfst : fst (Upload.single (now env) (up_file q) (disk st))
                 = inr file) by now rewrite Hsingle.
  rewrite uploadImage_handler_cases.
  destruct (list_find (fun u => email u = up_email q) (users st))
    as [[i u] |]; [| discriminate].
  destruct (truthy (imagePath u)); [discriminate |].
  destruct file as [rf |];
    [| intros H201; now destruct (upload_catch_status _ H201)].
  intros _.
  apply single_lets_through in Hfst
    as [[_ Hnone] | (f & Hpart & [[_ Hnone] | [Hok _]])];
    [discriminate | discriminate | eauto].
Qed.

Lemma uploadImage_201 D env q st :
  status (fst (uploadImage D env q st)) = 201 ->
  exists i u f0,
    up_file q = Some f0
    /\ list_find (fun u => email u = up_email q) (users st) = Some (i, u)
    /\ truthy (imagePath u) = false
    /\ snd (uploadImage D env q st)
       = {| users := <[i := with_imagePath
                              (Upload.destination
                               ++ Upload.make_filename (now env) f0)%string
                              u]> (users st);
            disk := <[(Upload.destination
                       ++ Upload.make_filename (now env) f0)%string
                      := data f0]> (disk st) |}.
Proof.
  unfold uploadImage.
  destruct (Upload.single (now env) (up_file q) (disk st))
    as [[err | file] dk] eqn:Hsingle; [discriminate |].
  rewrite uploadImage_handler_cases.
  destruct (list_find (fun u => email u = up_email q) (users st))
    as [[i u] |]; [| discriminate].
  destruct (truthy (imagePath u)) eqn:Hunset; [discriminate |].
  destruct file as [f |];
    [| intros H201; now destruct (upload_catch_status _ H201)].
  destruct (validate _);
    [| intros H201; now destruct (upload_catch_status _ H201)].
  intros _.
  apply single_accepts in Hsingle as [[Hnone _] | (f0 & Hpart & Hfile & Hdk)];
    [discriminate |].
  injection Hfile as ->. subst dk.
  exists i, u, f0. auto.
Qed.

Lemma uploadImage_already_set D env q st i u file :
  list_find (fun u => email u = up_email q) (users st) = Some (i, u) ->
  truthy (imagePath u) = true ->
  fst (Upload.single (now env) (up_file q) (disk st)) = inr file ->
  fst (uploadImage D env q st)
  = mkResponse 400 (JsonError "Image already exists for this user.")
  /\ users (snd (uploadImage D env q st)) = users st
  /\ forall p,
       (forall f, file = Some f -> path f <> p) ->
       disk (snd (uploadImage D env q st)) !! p = disk st !! p.
Proof.
  intros Hfind Hset Hfile. unfold uploadImage.
  destruct (Upload.single (now env) (up_file q) (disk st))
    as [[err | file'] dk] eqn:Hsingle; cbn [fst] in Hfile; [discriminate |].
  injection Hfile as ->.
  rewrite uploadImage_handler_cases, Hfind, Hset. cbn.
  repeat split. intros p Hp.
  apply single_accepts in Hsingle as [[_ ->] | (f0 & _ & -> & ->)];
    [reflexivity |].
  apply lookup_insert_ne. exact (Hp _ eq_refl).
Qed.

(** C5, as the code has it.  In a collection with unique emails:
    a user is created with [imagePath] [null]; an upload answered 201
    sets the [imagePath] of a user that had none, to the non-empty path
    of the file just written; whatever the request, a user whose
    [imagePath] is set keeps it while stored; and an upload for such a
    user that the middleware lets through is answered 400
    [Image already exists for this user.] with no user document
    changed, every file on disk keeping its content except the one at
    the path the new file is written to.  The middleware lets a request
    through when it carries no file part, a part without file name, or
    a named file in the field [image] of an accepted type and smaller
    than 5 MiB. *)
Theorem imagePath_set_once D env r st :
  unique_emails (users st) ->
  let out := handle D env r st in
  (forall b, r = Create b -> status (fst out) = 201 ->
     exists u, users (snd out) = users st ++ [u]
               /\ email u = normalizeEmail D (req_email b)
               /\ imagePath u = None)
  /\ (forall q, r = UploadImage q -> status (fst out) = 201 ->
        exists i u p,
          list_find (fun u => email u = up_email q) (users st) = Some (i, u)
          /\ truthy (imagePath u) = false
          /\ truthy (Some p) = true
          /\ users (snd out) = <[i := with_imagePath p u]> (users st)
          /\ is_Some (disk (snd out) !! p))
  /\ (forall u v,
        u ∈ users st -> truthy (imagePath u) = true ->
        v ∈ users (snd out) -> email v = email u ->
        imagePath v = imagePath u)
  /\ (forall q i u file,
        r = UploadImage q ->
        list_find (fun u => email u = up_email q) (users st) = Some (i, u) ->
        truthy (imagePath u) = true ->
        fst (Upload.single (now env) (up_file q) (disk st)) = inr file ->
        fst out
        = mkResponse 400 (JsonError "Image already exists for this user.")
        /\ users (snd out) = users st
        /\ forall p,
             (forall f, file = Some f -> path f <> p) ->
             disk (snd out) !! p = disk st !! p)
  /\ (forall q file,
        fst (Upload.single (now env) (up_file q) (disk st)) = inr file <->
        (up_file q = None /\ file = None)
        \/ exists f,
             up_file q = Some f
             /\ ((originalname f = "" /\ file = None)
                 \/ (stores_file f = true
                     /\ file = Some (stored_file (now env) f)))).
Proof.
  intros Hnd out. split; [| split; [| split; [| split]]].
  5: intros q file; apply single_lets_through.
  - intros b -> H201. unfold out in *. cbn in *.
    rewrite (createUser_saved _ _ _ _ H201). eexists. split; [reflexivity |].
    split; reflexivity.
  - intros q -> H201. unfold out in *. cbn in *.
    apply uploadImage_201 in H201 as (i & u & f0 & _ & Hfind & Hunset & ->).
    exists i, u,
    (Upload.destination ++ Upload.make_filename (now env) f0)%string.
    cbn [users disk]. repeat split; try assumption.
    rewrite lookup_insert_eq. eauto.
  - intros u v Hu Hset Hv Heq.
    exact (users_step_imagePath _ _ u v (handle_users_step D env r st)
             Hnd Hu Hset Hv Heq).
  - intros q i u file -> Hfind Hset Hfile. unfold out. cbn.
    now apply uploadImage_already_set with (i := i) (u := u).
Qed.

Lemma imagePath_set_once_witness :
  fst (uploadImage Sample.deps Sample.env
         (mkUpload "a@b.com" (Some png_later)) state_with_image)
  = mkResponse 400 (JsonError "Image already exists for this user.")
  /\ users (snd (uploadImage Sample.deps Sample.env
                   (mkUpload "a@b.com" (Some png_later)) state_with_image))
     = [user_with_image]
  /\ disk (snd (uploadImage Sample.deps Sample.env
                  (mkUpload "a@b.com" (Some png_later)) state_with_image))
       !! stored_path
     = Some "PNGDATA".
Proof.
  assert (Hnd : unique_emails (users state_with_image)).
  { apply NoDup_singleton. }
  destruct (imagePath_set_once Sample.deps Sample.env
              (UploadImage (mkUpload "a@b.com" (Some png_later)))
              state_with_image Hnd) as (_ & _ & _ & Hlater & _).
  destruct (Hlater (mkUpload "a@b.com" (Some png_later)) 0 user_with_image
              (Some {| path := "images/1700000000000-other.png";
                       filename := "1700000000000-other.png" |})
              eq_refl eq_refl eq_refl eq_refl) as (Hres & Husers & Hdisk).
  split; [exact Hres | split; [exact Husers |]].
  transitivity (disk state_with_image !! stored_path); [| reflexivity].
  apply (Hdisk stored_path). intros f [= <-]. discriminate.
Defined.

(** C5 as stated fails for two kinds of later upload.  One whose file
    the middleware refuses for its size is answered 500, not 400
    [Image already exists for this user.]; and one whose file gets the
    generated name of the first file (same clock value, same original
    name) is answered 400 but has replaced the content of that file. *)
Lemma later_upload_counterexample :
  status (fst (uploadImage Sample.deps Sample.env
                 (mkUpload "a@b.com" (Some png_6MiB)) state_with_image))
  = 500
  /\ fst (uploadImage Sample.deps Sample.env
            (mkUpload "a@b.com" (Some png_same_name)) state_with_image)
     = mkResponse 400 (JsonError "Image already exists for this user.")
  /\ disk state_with_image !! stored_path = Some "PNGDATA"
  /\ disk (snd (uploadImage Sample.deps Sample.env
                  (mkUpload "a@b.com" (Some png_same_name)) state_with_image))
       !! stored_path
     = Some "OTHER".
Proof. repeat split. Qed.

(** ** Files the middleware refuses *)

(** C4, as the code has it.  An upload whose file declares a
    content-type containing none of [jpeg], [jpg], [png], [gif], or has
    5 MiB or more, fails: it is not answered 201 and no user document
    changes.  A file of 6 MiB fails whatever its content-type.  A named
    file in the field [image] of an accepted type that reaches 5 MiB is
    answered with status 500.  And status 400 is not confined to such
    files: a named file in the field [image] of an accepted type and
    smaller than 5 MiB is answered 400 when the user already has an
    image. *)
Theorem upload_rejection D env e (file : File) st :
  let out := uploadImage D env (mkUpload e (Some file)) st in
  (middleware_rejects file = true ->
   users (snd out) = users st /\ status (fst out) <> 201)
  /\ ((6 * 1024 * 1024 <=? size file)%N = true ->
      middleware_rejects file = true)
  /\ (originalname file <> "" ->
      fieldname file = "image" ->
      Re.test Upload.fileTypes (mimetype file) = true ->
      (Upload.fileSize <=? size file)%N = true ->
      status (fst out) = 500)
  /\ (stores_file file = true ->
      forall i u,
        list_find (fun u => email u = e) (users st) = Some (i, u) ->
        truthy (imagePath u) = true ->
        fst out
        = mkResponse 400 (JsonError "Image already exists for this user.")).
Proof.
  cbv zeta. split; [| split; [| split]].
  - intros Hrej.
    assert (Hno : status (fst (uploadImage D env (mkUpload e (Some file)) st))
                  <> 201).
    { intros H201.
      apply uploadImage_201_file in H201 as (f & [= <-] & Hok).
      unfold stores_file in Hok. rewrite Hrej, andb_false_r in Hok.
      discriminate Hok. }
    split; [now apply uploadImage_unsaved | exact Hno].
  - intros Hbig. unfold middleware_rejects.
    apply N.leb_le in Hbig. apply orb_true_iff. right.
    apply N.leb_le. unfold Upload.fileSize. lia.
  - intros Hname Hfield Hty Hsz. unfold uploadImage. cbn [up_file].
    rewrite single_cases. apply String.eqb_neq in Hname.
    rewrite Hname, Hfield, Hty, Hsz. reflexivity.
  - intros Hok i u Hfind Hset.
    apply (uploadImage_already_set D env (mkUpload e (Some file)) st i u
             (Some (stored_file (now env) file)) Hfind Hset).
    cbn [up_file]. now rewrite (single_accepted _ _ _ Hok).
Qed.

Lemma upload_rejection_witness :
  (users (snd (uploadImage Sample.deps Sample.env
                 (mkUpload "a@b.com" (Some png_6MiB)) sample_state))
   = [sample_user]
   /\ status (fst (uploadImage Sample.deps Sample.env
                     (mkUpload "a@b.com" (Some png_6MiB)) sample_state))
      <> 201)
  /\ status (fst (uploadImage Sample.deps Sample.env
                    (mkUpload "a@b.com" (Some png_5MiB)) sample_state))
     = 500
  /\ fst (uploadImage Sample.deps Sample.env
            (mkUpload "a@b.com" (Some png_later)) state_with_image)
     = mkResponse 400 (JsonError "Image already exists for this user.").
Proof.
  split; [| split].
  - destruct (upload_rejection Sample.deps Sample.env "a@b.com" png_6MiB
                sample_state) as (Hrej & Hbig & _).
    apply Hrej, Hbig. reflexivity.
  - destruct (upload_rejection Sample.deps Sample.env "a@b.com" png_5MiB
                sample_state) as (_ & _ & H500 & _).
    apply H500; (reflexivity || discriminate).
  - destruct (upload_rejection Sample.deps Sample.env "a@b.com" png_later
                state_with_image) as (_ & _ & _ & H400).
    apply (H400 eq_refl 0 user_with_image); reflexivity.
Defined.

(** C4 as stated fails on the code in both directions: a 6 MiB file of
    an accepted type is answered 500, not 400; and a small file of an
    accepted type is answered 400 when the user already has an image. *)
Lemma upload_400_iff_counterexample :
  status (fst (uploadImage Sample.deps Sample.env
                 (mkUpload "a@b.com" (Some png_6MiB)) sample_state))
  = 500
  /\ middleware_rejects png_small = false
  /\ status (fst (uploadImage Sample.deps Sample.env
                    (mkUpload "a@b.com" (Some png_small)) state_with_image))
     = 400.
Proof. repeat split. Qed.

(** * Further properties *)

(** ** The matcher agrees with the languages *)

Lemma append_cons (c : ascii) (s1 s2 : string) :
  (String c s1 ++ s2)%string = String c (s1 ++ s2).
Proof. reflexivity. Qed.

Lemma append_nil_l (s : string) : ("" ++ s)%string = s.
Proof. reflexivity. Qed.

Lemma append_nil_r (s : string) : (s ++ "")%string = s.
Proof.
  induction s as [| c s IH]; [reflexivity |].
  rewrite append_cons. now f_equal.
Qed.

Lemma append_assoc (s1 s2 s3 : string) :
  ((s1 ++ s2) ++ s3)%string = (s1 ++ (s2 ++ s3))%string.
Proof.
  induction s1 as [| c s1 IH]; [reflexivity |].
  rewrite !append_cons. now f_equal.
Qed.

Lemma append_eq_nil (s1 s2 : string) :
  (s1 ++ s2)%string = "" -> s1 = "" /\ s2 = "".
Proof.
  destruct s1; [auto | discriminate].
Qed.

Lemma nullable_in_lang (r : Re.regex) :
  Re.nullable r = true <-> in_lang r "".
Proof.
  induction r as [| | p | r1 IH1 r2 IH2 | r1 IH1 r2 IH2 | r IH]; cbn.
  - split; [discriminate | inversion 1].
  - split; [constructor | reflexivity].
  - split; [discriminate | inversion 1].
  - rewrite andb_true_iff, IH1, IH2. split.
    + intros [H1 H2]. exact (in_cat _ _ "" "" H1 H2).
    + intros H. inversion H as [| | ? ? s1 s2 H1 H2 [Hr1 Hr2] Hw | | | |].
      apply append_eq_nil in Hw as [-> ->]. auto.
  - rewrite orb_true_iff, IH1, IH2. split.
    + intros [H | H]; [now apply in_alt_l | now apply in_alt_r].
    + inversion 1; subst; auto.
  - split; [constructor | reflexivity].
Qed.

Lemma deriv_sound (c : ascii) (r : Re.regex) (s : string) :
  in_lang (Re.deriv c r) s -> in_lang r (String c s).
Proof.
  revert s.
  induction r as [| | p | r1 IH1 r2 IH2 | r1 IH1 r2 IH2 | r IH];
    intros s; cbn.
  - inversion 1.
  - inversion 1.
  - destruct (p c) eqn:Hp; inversion 1; subst. now constructor.
  - destruct (Re.nullable r1) eqn:Hnull.
    + inversion 1 as [| | | ? ? ? Hl | ? ? ? Hr | |]; subst.
      * inversion Hl as [| | ? ? s1 s2 H1 H2 | | | |]; subst.
        exact (in_cat _ _ (String c s1) s2 (IH1 _ H1) H2).
      * apply nullable_in_lang in Hnull.
        exact (in_cat _ _ "" (String c s) Hnull (IH2 _ Hr)).
    + inversion 1 as [| | ? ? s1 s2 H1 H2 | | | |]; subst.
      exact (in_cat _ _ (String c s1) s2 (IH1 _ H1) H2).
  - inversion 1; subst; [apply in_alt_l | apply in_alt_r]; auto.
  - inversion 1 as [| | ? ? s1 s2 H1 H2 | | | |]; subst.
    exact (in_star_cons _ (String c s1) s2 (IH _ H1) H2).
Qed.

Lemma deriv_complete (r : Re.regex) (w : string) :
  in_lang r w ->
  forall c s, w = String c s -> in_lang (Re.deriv c r) s.
Proof.
  induction 1 as [| p c' Hp | r1 r2 s1 s2 H1 IH1 H2 IH2 | r1 r2 s0 H0 IH0
                  | r1 r2 s0 H0 IH0 | r | r s1 s2 H1 IH1 H2 IH2];
    intros c s Heq; cbn.
  - discriminate.
  - injection Heq as -> <-. rewrite Hp. constructor.
  - destruct s1 as [| c1 s1'].
    + rewrite append_nil_l in Heq. apply nullable_in_lang in H1. rewrite H1.
      apply in_alt_r. now apply IH2.
    + rewrite append_cons in Heq. injection Heq as -> <-.
      assert (in_lang (Re.Cat (Re.deriv c r1) r2) (s1' ++ s2)) as Hcat.
      { apply in_cat; [now apply IH1 | assumption]. }
      destruct (Re.nullable r1); [now apply in_alt_l | assumption].
  - apply in_alt_l. now apply IH0.
  - apply in_alt_r. now apply IH0.
  - discriminate.
  - destruct s1 as [| c1 s1'].
    + rewrite append_nil_l in Heq. now apply IH2.
    + rewrite append_cons in Heq. injection Heq as -> <-.
      apply in_cat; [now apply IH1 | assumption].
Qed.

(** The derivative matcher decides membership in the language. *)
Lemma matches_in_lang (r : Re.regex) (s : string) :
  Re.matches r s = true <-> in_lang r s.
Proof.
  revert r. induction s as [| c s IH]; intros r; cbn.
  - apply nullable_in_lang.
  - rewrite IH. split.
    + apply deriv_sound.
    + intros H. now apply (deriv_complete r (String c s)).
Qed.

Lemma in_lang_class (p : ascii -> bool) (s : string) :
  in_lang (Re.Class p) s <-> exists c, s = String c "" /\ p c = true.
Proof.
  split.
  - inversion 1; subst. eauto.
  - intros (c & -> & Hc). now constructor.
Qed.

Lemma in_lang_chr (c : ascii) (s : string) :
  in_lang (Re.Chr c) s <-> s = String c "".
Proof.
  unfold Re.Chr. rewrite in_lang_class. split.
  - intros (c' & -> & Hc). apply Ascii.eqb_eq in Hc. now subst.
  - intros ->. exists c. split; [reflexivity | apply Ascii.eqb_refl].
Qed.

Lemma in_lang_cat (r1 r2 : Re.regex) (s : string) :
  in_lang (Re.Cat r1 r2) s <->
  exists s1 s2, s = (s1 ++ s2)%string /\ in_lang r1 s1 /\ in_lang r2 s2.
Proof.
  split.
  - inversion 1; subst. eauto.
  - intros (s1 & s2 & -> & H1 & H2). now constructor.
Qed.

Lemma in_lang_alt (r1 r2 : Re.regex) (s : string) :
  in_lang (Re.Alt r1 r2) s <-> in_lang r1 s \/ in_lang r2 s.
Proof.
  split.
  - inversion 1; subst; auto.
  - intros [H | H]; [now apply in_alt_l | now apply in_alt_r].
Qed.

Lemma all_chars_nil (p : ascii -> bool) : all_chars p "".
Proof. intros c []. Qed.

Lemma all_chars_cons (p : ascii -> bool) (c : ascii) (s : string) :
  all_chars p (String c s) <-> p c = true /\ all_chars p s.
Proof.
  unfold all_chars. cbn. split.
  - intros H. split; [apply H; now left | intros x Hx; apply H; now right].
  - intros [Hc Hs] x [<- | Hx]; auto.
Qed.

Lemma all_chars_app (p : ascii -> bool) (s1 s2 : string) :
  all_chars p (s1 ++ s2) <-> all_chars p s1 /\ all_chars p s2.
Proof.
  induction s1 as [| c s1 IH].
  - rewrite append_nil_l. split; [split; [apply all_chars_nil | assumption] |].
    now intros [_ H].
  - rewrite append_cons, !all_chars_cons, IH. tauto.
Qed.

Lemma in_lang_star_class (p : ascii -> bool) (s : string) :
  in_lang (Re.Star (Re.Class p)) s <-> all_chars p s.
Proof.
  split.
  - intros H. remember (Re.Star (Re.Class p)) as r eqn:Hr.
    induction H as [| | | | | r' | r' s1 s2 H1 _ H2 IH2]; try discriminate.
    + apply all_chars_nil.
    + injection Hr as ->. apply all_chars_app. split; [| now apply IH2].
      apply in_lang_class in H1 as (c & -> & Hc).
      apply all_chars_cons. split; [assumption | apply all_chars_nil].
  - induction s as [| c s IH]; intros H; [constructor |].
    apply all_chars_cons in H as [Hc Hs].
    change (String c s) with (String c "" ++ s)%string.
    apply in_star_cons; [now constructor | now apply IH].
Qed.

Lemma in_lang_plus_class (p : ascii -> bool) (s : string) :
  in_lang (Re.Plus (Re.Class p)) s <-> s <> "" /\ all_chars p s.
Proof.
  unfold Re.Plus. rewrite in_lang_cat. split.
  - intros (s1 & s2 & -> & H1 & H2).
    apply in_lang_class in H1 as (c & -> & Hc).
    apply in_lang_star_class in H2. rewrite append_cons, append_nil_l.
    split; [discriminate | now apply all_chars_cons].
  - intros [Hne H]. destruct s as [| c s]; [congruence |].
    apply all_chars_cons in H as [Hc Hs].
    exists (String c ""), s. split; [reflexivity |].
    split; [now constructor | now apply in_lang_star_class].
Qed.

Lemma in_lang_lit (w s : string) : in_lang (Re.Lit w) s <-> s = w.
Proof.
  revert s. induction w as [| c w IH]; intros s; cbn.
  - split; [now inversion 1 | intros ->; constructor].
  - rewrite in_lang_cat. split.
    + intros (s1 & s2 & -> & H1 & H2).
      apply in_lang_chr in H1. apply IH in H2. now subst.
    + intros ->. exists (String c ""), w.
      split; [reflexivity |]. split; [now apply in_lang_chr | now apply IH].
Qed.

Lemma in_lang_star_any (s : string) : in_lang (Re.Star Re.Any) s.
Proof.
  apply in_lang_star_class. intros c _. reflexivity.
Qed.

(** An unanchored test succeeds exactly on the strings that contain a
    word of the language. *)
Lemma test_in_lang (r : Re.regex) (s : string) :
  Re.test r s = true <->
  exists pre mid post,
    s = (pre ++ mid ++ post)%string /\ in_lang r mid.
Proof.
  unfold Re.test. rewrite matches_in_lang, in_lang_cat. split.
  - intros (pre & rest & -> & _ & Hrest).
    apply in_lang_cat in Hrest as (mid & post & -> & Hmid & _).
    eauto.
  - intros (pre & mid & post & -> & Hmid).
    exists pre, (mid ++ post)%string. split; [reflexivity |].
    split; [apply in_lang_star_any |].
    apply in_lang_cat. exists mid, post.
    split; [reflexivity |]. split; [assumption | apply in_lang_star_any].
Qed.

(** ** The patterns of the sources, in words *)

(** X1.  [/^[A-Za-z\s]+$/], the pattern of the [fullName] chains and of
    the schema, accepts exactly the non-empty strings made of letters
    and white space. *)
Theorem fullName_pattern (s : string) :
  Validator.fullName_matches s = true <->
  s <> ""
  /\ all_chars (fun c => Re.upper c || Re.lower c || Re.space c) s.
Proof.
  unfold Validator.fullName_matches, Validator.fullName_re.
  rewrite matches_in_lang. apply in_lang_plus_class.
Qed.

(** X2.  The schema's pattern for [email] accepts exactly the strings
    [local@domain.tld] whose three parts are non-empty and free of
    white space and [@]; dots inside the parts are allowed. *)
Theorem email_pattern (s : string) :
  Schema.email_matches s = true <->
  exists l d t,
    s = (l ++ "@" ++ d ++ "." ++ t)%string
    /\ email_atom l /\ email_atom d /\ email_atom t.
Proof.
  unfold Schema.email_matches, Schema.email_re, Schema.atom, email_atom.
  rewrite matches_in_lang, in_lang_cat. split.
  - intros (l & r1 & -> & Hl & Hr1).
    apply in_lang_cat in Hr1 as (a & r2 & -> & Ha & Hr2).
    apply in_lang_cat in Hr2 as (d & r3 & -> & Hd & Hr3).
    apply in_lang_cat in Hr3 as (dot & t & -> & Hdot & Ht).
    apply in_lang_chr in Ha, Hdot. subst a dot.
    apply in_lang_plus_class in Hl, Hd, Ht.
    exists l, d, t. auto.
  - intros (l & d & t & -> & Hl & Hd & Ht).
    apply in_lang_plus_class in Hl, Hd, Ht.
    exists l, ("@" ++ d ++ "." ++ t)%string. split; [reflexivity |].
    split; [assumption |].
    apply in_lang_cat. exists "@", (d ++ "." ++ t)%string.
    split; [reflexivity |]. split; [now apply in_lang_chr |].
    apply in_lang_cat. exists d, ("." ++ t)%string.
    split; [reflexivity |]. split; [assumption |].
    apply in_lang_cat. exists ".", t.
    split; [reflexivity |]. split; [now apply in_lang_chr | assumption].
Qed.

(** X3.  [fileFilter] lets a file through exactly when its declared
    content-type contains [jpeg], [jpg], [png] or [gif] somewhere, in
    lower case; nothing else about the file is looked at. *)
Theorem fileFilter_accepts (file : File) :
  Upload.fileFilter file = inr true <->
  exists pre w post,
    mimetype file = (pre ++ w ++ post)%string
    /\ In w ["jpeg"; "jpg"; "png"; "gif"].
Proof.
  rewrite fileFilter_cases.
  destruct (Re.test Upload.fileTypes (mimetype file)) eqn:Htest.
  - split; [intros _ | reflexivity].
    apply test_in_lang in Htest as (pre & w & post & Heq & Hw).
    exists pre, w, post. split; [assumption |].
    unfold Upload.fileTypes in Hw.
    rewrite !in_lang_alt, !in_lang_lit in Hw. cbn. intuition auto.
  - split; [discriminate |].
    intros (pre & w & post & Heq & Hw).
    assert (Re.test Upload.fileTypes (mimetype file) = true) as Htrue;
      [| congruence].
    apply test_in_lang. exists pre, w, post. split; [assumption |].
    unfold Upload.fileTypes. rewrite !in_lang_alt, !in_lang_lit.
    cbn in Hw. intuition auto.
Qed.

(** ** Deleting users *)

Lemma deleteUser_found D b us i u :
  isEmail D (req_email b) = true ->
  list_find (fun u => email u = normalizeEmail D (req_email b)) us
  = Some (i, u) ->
  deleteUser D b us
  = (mkResponse 200 (JsonMessage "User deletion successful."), delete i us).
Proof.
  intros Hvalid Hfind. unfold deleteUser, delete_valid, findOne.
  now rewrite Hvalid, Hfind.
Qed.

Lemma deleteUser_missing D b us :
  Forall (fun u => email u <> normalizeEmail D (req_email b)) us ->
  deleteUser D b us
  = (if isEmail D (req_email b)
     then mkResponse 404 (JsonError "User not found")
     else validation_failed,
     us).
Proof.
  intros Hall. unfold deleteUser, delete_valid.
  destruct (isEmail D (req_email b)); cbn [negb]; [| reflexivity].
  apply findOne_None in Hall. now rewrite Hall.
Qed.

Lemma NoDup_delete_notin {A} (l : list A) (i : nat) (x : A) :
  NoDup l -> l !! i = Some x -> x ∉ delete i l.
Proof.
  intros Hnd. revert i.
  induction Hnd as [| y l Hy Hnd IH]; intros [| i] Hi; try discriminate.
  - injection Hi as ->. exact Hy.
  - cbn in Hi |- *. intros Hin. apply elem_of_cons in Hin as [-> | Hin].
    + apply Hy. now apply list_elem_of_lookup_2 in Hi.
    + exact (IH i Hi Hin).
Qed.

Lemma delete_unique_gone (us : list User) (i : nat) (u : User) :
  unique_emails us -> us !! i = Some u ->
  Forall (fun v => email v <> email u) (delete i us).
Proof.
  intros Hnd Hi. apply Forall_forall. intros v Hv Heq.
  apply (NoDup_delete_notin (email <$> us) i (email u) Hnd).
  - now rewrite list_lookup_fmap, Hi.
  - rewrite <- list_fmap_delete, <- Heq. now apply list_elem_of_fmap_2.
Qed.

(** X4.  A delete request with an accepted address that finds a user
    is answered 200 and removes that one document, the others staying
    in order; with unique emails no document with that email is left,
    so that the same request sent again is answered 404 and changes
    nothing. *)
Theorem delete_removes_user D b us i u :
  isEmail D (req_email b) = true ->
  list_find (fun u => email u = normalizeEmail D (req_email b)) us
  = Some (i, u) ->
  unique_emails us ->
  deleteUser D b us
  = (mkResponse 200 (JsonMessage "User deletion successful."),
     take i us ++ drop (S i) us)
  /\ Forall (fun v => email v <> normalizeEmail D (req_email b))
       (take i us ++ drop (S i) us)
  /\ deleteUser D b (take i us ++ drop (S i) us)
     = (mkResponse 404 (JsonError "User not found"),
        take i us ++ drop (S i) us).
Proof.
  intros Hvalid Hfind Hnd. rewrite <- delete_take_drop.
  pose proof Hfind as Hlook.
  apply list_find_Some in Hlook as (Hi & Heq & _).
  assert (Hgone : Forall (fun v => email v <> normalizeEmail D (req_email b))
                    (delete i us)).
  { rewrite <- Heq. now apply delete_unique_gone. }
  split; [now apply deleteUser_found with (u := u) |].
  split; [exact Hgone |].
  rewrite (deleteUser_missing D b _ Hgone). now rewrite Hvalid.
Qed.

Lemma delete_removes_user_witness :
  deleteUser Sample.deps mixed_case_body [sample_user]
  = (mkResponse 200 (JsonMessage "User deletion successful."), [])
  /\ deleteUser Sample.deps mixed_case_body []
     = (mkResponse 404 (JsonError "User not found"), []).
Proof.
  destruct (delete_removes_user Sample.deps mixed_case_body [sample_user]
              0 sample_user eq_refl eq_refl (NoDup_singleton _))
    as (Hdel & _ & Hagain).
  split; [exact Hdel | exact Hagain].
Defined.

(** X5.  A delete request whose normalized email is the email of no
    stored user changes nothing; it is answered 404 when the address is
    accepted by the validator and 400 when it is not. *)
Theorem delete_unknown_email D b us :
  Forall (fun u => email u <> normalizeEmail D (req_email b)) us ->
  deleteUser D b us
  = (if isEmail D (req_email b)
     then mkResponse 404 (JsonError "User not found")
     else validation_failed,
     us).
Proof.
  apply deleteUser_missing.
Qed.

Lemma delete_unknown_email_witness :
  deleteUser Sample.deps
    {| req_email := "Nobody@B.com"; req_fullName := ""; req_password := "" |}
    [sample_user]
  = (mkResponse 404 (JsonError "User not found"), [sample_user]).
Proof.
  apply (delete_unknown_email Sample.deps
           {| req_email := "Nobody@B.com"; req_fullName := "";
              req_password := "" |}
           [sample_user]).
  constructor; [discriminate | constructor].
Defined.

(** ** Requests in sequence *)

Lemma createUser_201_fresh D env b us :
  status (fst (createUser D env b us)) = 201 ->
  Forall (fun u => email u <> normalizeEmail D (req_email b)) us.
Proof.
  unfold createUser.
  destruct (create_valid D b); cbn [negb]; [| discriminate].
  destruct (findOne (normalizeEmail D (req_email b)) us) eqn:Hfind;
    [discriminate |].
  intros _. now apply findOne_None.
Qed.

Lemma delete_last {A} (l : list A) (x : A) :
  delete (length l) (l ++ [x]) = l.
Proof.
  induction l as [| y l IH]; [reflexivity |]. cbn. now f_equal.
Qed.

Lemma list_find_last (e : string) (us : list User) (u : User) :
  Forall (fun v => email v <> e) us -> email u = e ->
  list_find (fun v => email v = e) (us ++ [u]) = Some (length us, u).
Proof.
  intros Hfresh Hu. apply list_find_Some. split; [| split].
  - rewrite lookup_app_r by lia. now rewrite Nat.sub_diag.
  - exact Hu.
  - intros j v Hj Hlt. rewrite lookup_app_l in Hj by exact Hlt.
    rewrite Forall_forall in Hfresh. apply Hfresh.
    now apply list_elem_of_lookup_2 in Hj.
Qed.

(** X6.  Deleting undoes creating: after a create request that was
    saved, a delete request with the same body is answered 200 and
    gives back the collection as it was before the create. *)
Theorem create_then_delete D env b us :
  status (fst (createUser D env b us)) = 201 ->
  deleteUser D b (snd (createUser D env b us))
  = (mkResponse 200 (JsonMessage "User deletion successful."), us).
Proof.
  intros H201.
  pose proof (createUser_201_valid _ _ _ _ H201) as Hvalid.
  pose proof (createUser_201_fresh _ _ _ _ H201) as Hfresh.
  rewrite (createUser_saved _ _ _ _ H201).
  unfold create_valid in Hvalid.
  apply andb_true_iff in Hvalid as [Hvalid _].
  apply andb_true_iff in Hvalid as [Hmail _].
  erewrite deleteUser_found;
    [| exact Hmail | apply list_find_last; [exact Hfresh | reflexivity]].
  now rewrite delete_last.
Qed.

Lemma create_then_delete_witness :
  deleteUser Sample.deps mixed_case_body
    (snd (createUser Sample.deps Sample.env mixed_case_body []))
  = (mkResponse 200 (JsonMessage "User deletion successful."), []).
Proof.
  apply (create_then_delete Sample.deps Sample.env mixed_case_body []).
  reflexivity.
Defined.

(** X7.  A create request that was saved cannot be repeated: the same
    body sent again, whatever salts are drawn, is answered 400
    [Email already registered] and the collection stays as the first
    request left it. *)
Theorem create_twice D env env' b us :
  status (fst (createUser D env b us)) = 201 ->
  createUser D env' b (snd (createUser D env b us))
  = (mkResponse 400 (JsonError "Email already registered"),
     snd (createUser D env b us)).
Proof.
  intros H201.
  pose proof (createUser_201_valid _ _ _ _ H201) as Hvalid.
  rewrite (createUser_saved _ _ _ _ H201).
  unfold createUser at 1. rewrite Hvalid. cbn [negb].
  destruct (findOne_is_Some (normalizeEmail D (req_email b))
              (us ++ [new_document D env b])) as [d ->];
    [| reflexivity].
  apply Exists_app. right. apply Exists_cons_hd. reflexivity.
Qed.

Lemma create_twice_witness :
  createUser Sample.deps Sample.env mixed_case_body
    (snd (createUser Sample.deps Sample.env mixed_case_body []))
  = (mkResponse 400 (JsonError "Email already registered"),
     snd (createUser Sample.deps Sample.env mixed_case_body [])).
Proof.
  apply (create_twice Sample.deps Sample.env Sample.env mixed_case_body []).
  reflexivity.
Defined.

(** ** Requests that succeed *)

(** X8.  An edit request that passes validation and names a stored user
    whose email has the schema's shape is answered 200, provided the
    hash of the password is not the empty string.  It replaces the full
    name and the password of that one document, by the submitted name
    and by the hash of the hash of the submitted password; the
    identifier, the email and the image path of the document, and every
    other document, stay as they were. *)
Theorem edit_updates_user D env b us i u :
  edit_valid b = true ->
  list_find (fun u => email u = req_email b) us = Some (i, u) ->
  Schema.email_matches (email u) = true ->
  bcrypt_hash D (req_password b) 10 (salt1 env) <> "" ->
  editUser D env b us
  = (mkResponse 200 (JsonMessage "User updated successfully."),
     <[i := {| _id := _id u;
               fullName := req_fullName b;
               email := email u;
               password := double_hash D env (req_password b);
               imagePath := imagePath u |}]> us)
  /\ length (snd (editUser D env b us)) = length us
  /\ forall j, j <> i -> snd (editUser D env b us) !! j = us !! j.
Proof.
  intros Hvalid Hfind Hshape Hhash.
  rewrite (editUser_succeeds D env b us i u Hvalid Hfind Hshape Hhash).
  cbn [snd]. split; [reflexivity |].
  split; [apply length_insert |].
  intros j Hj. now apply list_lookup_insert_ne.
Qed.

Lemma edit_updates_user_witness :
  editUser Sample.deps Sample.env
    {| req_email := "a@b.com"; req_fullName := "C D";
       req_password := "Password2!" |}
    [sample_user]
  = (mkResponse 200 (JsonMessage "User updated successfully."),
     [edited_user]).
Proof.
  apply (edit_updates_user Sample.deps Sample.env
           {| req_email := "a@b.com"; req_fullName := "C D";
              req_password := "Password2!" |}
           [sample_user] 0 sample_user).
  - reflexivity.
  - reflexivity.
  - reflexivity.
  - discriminate.
Defined.

(** X9.  An upload whose file is named, sent in the field [image], of
    an accepted type and smaller than 5 MiB, for a stored user without
    image whose name and email have the schema's shapes, is answered
    201 with the public path [/images/<clock>-<original name>]; the
    file is written under [images/] with that name, that path becomes
    the user's [imagePath], and nothing else in the document changes. *)
Theorem upload_stores_image D env q st i u f :
  up_file q = Some f ->
  stores_file f = true ->
  list_find (fun u => email u = up_email q) (users st) = Some (i, u) ->
  truthy (imagePath u) = false ->
  well_formed u ->
  let name := Upload.make_filename (now env) f in
  uploadImage D env q st
  = (mkResponse 201
       (JsonUpload "Image uploaded successfully."
          ("/images/" ++ name)%string),
     {| users :=
          <[i := {| _id := _id u;
                    fullName := fullName u; email := email u;
                    password := password u;
                    imagePath := Some ("images/" ++ name)%string |}]>
            (users st);
        disk := <[("images/" ++ name)%string := data f]> (disk st) |}).
Proof.
  intros Hfile Hok Hfind Hunset Hwf name.
  unfold uploadImage. rewrite Hfile, (single_accepted _ _ _ Hok).
  rewrite uploadImage_handler_cases, Hfind, Hunset.
  cbn [path filename stored_file].
  now rewrite validate_uploaded.
Qed.

Lemma upload_stores_image_witness :
  uploadImage Sample.deps Sample.env (mkUpload "a@b.com" (Some png_small))
    sample_state
  = (mkResponse 201
       (JsonUpload "Image uploaded successfully."
          "/images/1700000000000-me.png"),
     {| users := [user_with_image];
        disk := {[ "images/1700000000000-me.png" := "PNGDATA" ]} |}).
Proof.
  apply (upload_stores_image Sample.deps Sample.env
           (mkUpload "a@b.com" (Some png_small)) sample_state 0 sample_user
           png_small); try reflexivity.
  split; reflexivity.
Defined.

(** X10.  The file is written before the user is looked up: an upload
    whose file is named, sent in the field [image], of an accepted type
    and smaller than 5 MiB, and that names no stored user, is answered
    404 and changes no user document, yet its file stays on disk under
    [images/]. *)
Theorem upload_unknown_user_keeps_file D env q st f :
  up_file q = Some f ->
  stores_file f = true ->
  Forall (fun u => email u <> up_email q) (users st) ->
  uploadImage D env q st
  = (mkResponse 404 (JsonError "User not found."),
     {| users := users st;
        disk := <[(Upload.destination
                   ++ Upload.make_filename (now env) f)%string
                  := data f]> (disk st) |}).
Proof.
  intros Hfile Hok Hnone.
  unfold uploadImage. rewrite Hfile, (single_accepted _ _ _ Hok).
  rewrite uploadImage_handler_cases.
  apply (list_find_None (fun u => email u = up_email q)) in Hnone.
  now rewrite Hnone.
Qed.

Lemma upload_unknown_user_keeps_file_witness :
  uploadImage Sample.deps Sample.env
    (mkUpload "nobody@b.com" (Some png_small)) sample_state
  = (mkResponse 404 (JsonError "User not found."),
     {| users := [sample_user];
        disk := {[ "images/1700000000000-me.png" := "PNGDATA" ]} |}).
Proof.
  apply (upload_unknown_user_keeps_file Sample.deps Sample.env
           (mkUpload "nobody@b.com" (Some png_small)) sample_state png_small).
  - reflexivity.
  - reflexivity.
  - constructor; [discriminate | constructor].
Defined.

Lemma list_find_updated (e : string) (us : list User) (i : nat)
    (u u' : User) :
  list_find (fun v => email v = e) us = Some (i, u) ->
  email u' = email u ->
  list_find (fun v => email v = e) (<[i := u']> us) = Some (i, u').
Proof.
  intros Hfind Hemail.
  apply list_find_Some in Hfind as (Hi & He & Hleast).
  apply list_find_insert_Some. right. left.
  split; [reflexivity |]. split; [reflexivity |].
  split; [now apply lookup_lt_Some in Hi |].
  split; [congruence |].
  intros j z Hj Hlt. exact (Hleast j z Hj Hlt).
Qed.

(** X11.  After an upload that was answered 201, a further upload for
    the same email is answered 400
    [Image already exists for this user.] and changes no user document,
    whether it carries no file or a file that is named, sent in the
    field [image], of an accepted type and smaller than 5 MiB. *)
Theorem upload_twice D env env' q q' st :
  let st1 := snd (uploadImage D env q st) in
  status (fst (uploadImage D env q st)) = 201 ->
  up_email q' = up_email q ->
  up_file q' = None
  \/ (exists f, up_file q' = Some f /\ stores_file f = true) ->
  fst (uploadImage D env' q' st1)
  = mkResponse 400 (JsonError "Image already exists for this user.")
  /\ users (snd (uploadImage D env' q' st1)) = users st1.
Proof.
  intros st1 H201 Hsame Hfile.
  destruct (uploadImage_201 _ _ _ _ H201)
    as (i & u & f0 & _ & Hfind & _ & Hst1).
  fold st1 in Hst1.
  assert (Hfind1 : list_find (fun v => email v = up_email q') (users st1)
                   = Some (i, with_imagePath
                                (Upload.destination
                                 ++ Upload.make_filename (now env) f0)%string
                                u)).
  { rewrite Hst1, Hsame. cbn [users].
    now apply list_find_updated with (u := u). }
  assert (Hthrough : exists file,
             fst (Upload.single (now env') (up_file q') (disk st1))
             = inr file).
  { destruct Hfile as [-> | (f & -> & Hok)].
    - now exists None.
    - rewrite (single_accepted _ _ _ Hok). eauto. }
  destruct Hthrough as [file Hthrough].
  destruct (uploadImage_already_set D env' q' st1 _ _ file Hfind1 eq_refl
              Hthrough) as (Hres & Husers & _).
  split; assumption.
Qed.

Lemma upload_twice_witness :
  fst (uploadImage Sample.deps Sample.env
         (mkUpload "a@b.com" (Some png_later))
         (snd (uploadImage Sample.deps Sample.env
                 (mkUpload "a@b.com" (Some png_small)) sample_state)))
  = mkResponse 400 (JsonError "Image already exists for this user.").
Proof.
  apply (upload_twice Sample.deps Sample.env Sample.env
           (mkUpload "a@b.com" (Some png_small))
           (mkUpload "a@b.com" (Some png_later)) sample_state);
    [reflexivity | reflexivity |].
  right. exists png_later. split; reflexivity.
Defined.

(** ** Requests that fail *)

(** X12.  A request that is answered neither 200 nor 201 leaves every
    user document as it was. *)
Theorem failed_request_keeps_users D env r st :
  status (fst (handle D env r st)) <> 200 ->
  status (fst (handle D env r st)) <> 201 ->
  users (snd (handle D env r st)) = users st.
Proof.
  destruct r as [b | b | b | | q]; cbn; intros H200 H201.
  - now apply createUser_unsaved.
  - now apply editUser_unsaved.
  - now apply deleteUser_kept.
  - reflexivity.
  - now apply uploadImage_unsaved.
Qed.

Lemma failed_request_keeps_users_witness :
  users (snd (handle Sample.deps Sample.env
                (Edit {| req_email := "a@b.com"; req_fullName := "C3PO";
                         req_password := "Password2!" |})
                sample_state))
  = [sample_user].
Proof.
  apply (failed_request_keeps_users Sample.deps Sample.env
           (Edit {| req_email := "a@b.com"; req_fullName := "C3PO";
                    req_password := "Password2!" |})
           sample_state); discriminate.
Defined.

(** ** What every reachable state satisfies *)

Lemma check_nil (p : Path) (re : Re.regex) (v : string) :
  Schema.check p (Some re) v = [] -> Re.matches re v = true.
Proof.
  unfold Schema.check, Schema.required, Schema.match_.
  destruct (String.eqb v ""); cbn; [discriminate |].
  now destruct (Re.matches re v).
Qed.

Lemma createUser_201_shape D env b us :
  status (fst (createUser D env b us)) = 201 ->
  Schema.email_matches (normalizeEmail D (req_email b)) = true.
Proof.
  unfold createUser.
  destruct (create_valid D b); cbn [negb]; [| discriminate].
  destruct (findOne (normalizeEmail D (req_email b)) us); [discriminate |].
  rewrite save_new.
  destruct (validate _) eqn:Hval; [| discriminate].
  intros _. unfold validate in Hval. cbn [new_User doc_email] in Hval.
  apply app_eq_nil in Hval as [_ Hval].
  apply app_eq_nil in Hval as [Hval _].
  now apply check_nil in Hval.
Qed.

Lemma editUser_200_valid D env b us :
  status (fst (editUser D env b us)) = 200 -> edit_valid b = true.
Proof.
  unfold editUser. destruct (edit_valid b); [reflexivity | discriminate].
Qed.

Lemma createUser_stored_ok D env b us :
  Forall (stored_ok D) us ->
  Forall (stored_ok D) (snd (createUser D env b us)).
Proof.
  intros Hall.
  destruct (decide (status (fst (createUser D env b us)) = 201))
    as [H201 | Hno]; [| now rewrite createUser_unsaved].
  rewrite (createUser_saved _ _ _ _ H201).
  apply Forall_app. split; [assumption |].
  constructor; [| constructor].
  pose proof (createUser_201_valid _ _ _ _ H201) as Hvalid.
  pose proof (createUser_201_shape _ _ _ _ H201) as Hshape.
  unfold create_valid in Hvalid.
  apply andb_true_iff in Hvalid as [Hvalid Hpw].
  apply andb_true_iff in Hvalid as [Hmail Hname].
  split; [split; assumption |].
  split; [exists (req_email b); auto |].
  split; [exists (req_password b), (salt1 env), (salt2 env); auto |].
  now left.
Qed.

Lemma editUser_stored_ok D env b us :
  Forall (stored_ok D) us ->
  Forall (stored_ok D) (snd (editUser D env b us)).
Proof.
  intros Hall.
  destruct (decide (status (fst (editUser D env b us)) = 200))
    as [H200 | Hno]; [| now rewrite editUser_unsaved].
  pose proof (editUser_200_valid _ _ _ _ H200) as Hvalid.
  destruct (editUser_saved _ _ _ _ H200) as (i & u & Hfind & ->).
  apply list_find_Some in Hfind as (Hi & _).
  apply Forall_insert; [assumption |].
  rewrite Forall_forall in Hall.
  destruct (Hall u (list_elem_of_lookup_2 _ _ _ Hi))
    as ([_ Hshape] & Hnorm & _ & Himg).
  unfold edit_valid in Hvalid.
  apply andb_true_iff in Hvalid as [Hname Hpw].
  split; [split; assumption |].
  split; [exact Hnorm |].
  split; [exists (req_password b), (salt1 env), (salt2 env); auto |].
  exact Himg.
Qed.

Lemma deleteUser_stored_ok D b us :
  Forall (stored_ok D) us ->
  Forall (stored_ok D) (snd (deleteUser D b us)).
Proof.
  intros Hall. unfold deleteUser.
  destruct (delete_valid D b); cbn [negb]; [| assumption].
  destruct (findOne (normalizeEmail D (req_email b)) us) as [d |];
    [| assumption].
  cbn [snd]. unfold deleteOne. destruct (origin d); [| assumption].
  now apply Forall_delete.
Qed.

Lemma uploadImage_stored_ok D env q st :
  Forall (stored_ok D) (users st) ->
  Forall (stored_ok D) (users (snd (uploadImage D env q st))).
Proof.
  intros Hall.
  destruct (decide (status (fst (uploadImage D env q st)) = 201))
    as [H201 | Hno]; [| now rewrite uploadImage_unsaved].
  destruct (uploadImage_201 _ _ _ _ H201)
    as (i & u & f0 & _ & Hfind & _ & ->).
  apply list_find_Some in Hfind as (Hi & _).
  cbn [users]. apply Forall_insert; [assumption |].
  rewrite Forall_forall in Hall.
  destruct (Hall u (list_elem_of_lookup_2 _ _ _ Hi))
    as (Hwf & Hnorm & Hpw & _).
  split; [exact Hwf |]. split; [exact Hnorm |]. split; [exact Hpw |].
  right. exists (now env), (originalname f0). reflexivity.
Qed.

Lemma handle_stored_ok D env r st :
  Forall (stored_ok D) (users st) ->
  Forall (stored_ok D) (users (snd (handle D env r st))).
Proof.
  destruct r as [b | b | b | | q]; cbn; intros Hall.
  - now apply createUser_stored_ok.
  - now apply editUser_stored_ok.
  - now apply deleteUser_stored_ok.
  - assumption.
  - now apply uploadImage_stored_ok.
Qed.

Lemma reachable_stored_ok D st :
  reachable D st -> Forall (stored_ok D) (users st).
Proof.
  induction 1 as [| st env r _ IH]; [constructor |].
  now apply handle_stored_ok.
Qed.

Lemma reachable_init_witness :
  reachable Sample.deps
    (snd (handle Sample.deps Sample.env (Create mixed_case_body)
            {| users := []; disk := ∅ |})).
Proof. apply reach_step, reach_init. Qed.

(** X13.  The unique index holds throughout: in every state reached
    from the empty collection no two stored users have the same email,
    and no request can break this. *)
Theorem emails_stay_unique D st :
  reachable D st ->
  unique_emails (users st)
  /\ forall env r, unique_emails (users (snd (handle D env r st))).
Proof.
  intros Hreach. pose proof (reachable_unique D st Hreach) as Hnd.
  split; [exact Hnd |]. intros env r.
  exact (users_step_unique _ _ (handle_users_step D env r st) Hnd).
Qed.

Lemma emails_stay_unique_witness :
  unique_emails
    (users (snd (handle Sample.deps Sample.env (Create mixed_case_body)
                   {| users := []; disk := ∅ |}))).
Proof.
  apply (emails_stay_unique Sample.deps _ reachable_init_witness).
Defined.

(** X14.  In every state reached from the empty collection, each stored
    user has a full name and an email of the shapes the schema asks
    for, and the email is the normal form of an address the validator
    accepted. *)
Theorem stored_fields_well_formed D st :
  reachable D st ->
  Forall (fun u => well_formed u /\ normalized_email D u) (users st).
Proof.
  intros Hreach. apply reachable_stored_ok in Hreach.
  eapply Forall_impl; [exact Hreach |].
  intros u (Hwf & Hnorm & _). auto.
Qed.

Lemma stored_fields_well_formed_witness :
  Forall (fun u => well_formed u /\ normalized_email Sample.deps u)
    (users (snd (handle Sample.deps Sample.env (Create mixed_case_body)
                   {| users := []; disk := ∅ |}))).
Proof.
  apply (stored_fields_well_formed Sample.deps _ reachable_init_witness).
Defined.

(** X15.  In every state reached from the empty collection, each stored
    password is the result of two nested calls of the hash, the inner
    one on a password that passed the strength rule. *)
Theorem stored_passwords_hashed D st :
  reachable D st -> Forall (hashed_password D) (users st).
Proof.
  intros Hreach. apply reachable_stored_ok in Hreach.
  eapply Forall_impl; [exact Hreach |].
  intros u (_ & _ & Hpw & _). exact Hpw.
Qed.

Lemma stored_passwords_hashed_witness :
  Forall (hashed_password Sample.deps)
    (users (snd (handle Sample.deps Sample.env (Create mixed_case_body)
                   {| users := []; disk := ∅ |}))).
Proof.
  apply (stored_passwords_hashed Sample.deps _ reachable_init_witness).
Defined.

(** X16.  In every state reached from the empty collection, the
    [imagePath] of each stored user is [null] or a path
    [images/<clock>-<original name>] written by the upload
    middleware. *)
Theorem stored_images_under_destination D st :
  reachable D st -> Forall image_under_destination (users st).
Proof.
  intros Hreach. apply reachable_stored_ok in Hreach.
  eapply Forall_impl; [exact Hreach |].
  intros u (_ & _ & _ & Himg). exact Himg.
Qed.

Lemma stored_images_under_destination_witness :
  Forall image_under_destination
    (users (snd (handle Sample.deps Sample.env (Create mixed_case_body)
                   {| users := []; disk := ∅ |}))).
Proof.
  apply (stored_images_under_destination Sample.deps _
           reachable_init_witness).
Defined.

(** X17.  In a state reached from the empty collection the stored
    documents never stand in the way of a request: an upload whose file
    is named, sent in the field [image], of an accepted type and
    smaller than 5 MiB, for a stored user without image, is answered
    201; and an edit that passes validation for a stored user is
    answered 200 as soon as the hash of the password is not the empty
    string. *)
Theorem requests_succeed_on_reachable D env st :
  reachable D st ->
  (forall q i u f,
      up_file q = Some f ->
      stores_file f = true ->
      list_find (fun u => email u = up_email q) (users st) = Some (i, u) ->
      truthy (imagePath u) = false ->
      status (fst (uploadImage D env q st)) = 201)
  /\ (forall b i u,
         edit_valid b = true ->
         list_find (fun u => email u = req_email b) (users st)
         = Some (i, u) ->
         bcrypt_hash D (req_password b) 10 (salt1 env) <> "" ->
         status (fst (editUser D env b (users st))) = 200).
Proof.
  intros Hreach. apply reachable_stored_ok in Hreach.
  rewrite Forall_forall in Hreach. split.
  - intros q i u f Hfile Hok Hfind Hunset.
    pose proof Hfind as Hlook. apply list_find_Some in Hlook as (Hi & _).
    destruct (Hreach u (list_elem_of_lookup_2 _ _ _ Hi)) as (Hwf & _).
    unfold uploadImage. rewrite Hfile, (single_accepted _ _ _ Hok).
    rewrite uploadImage_handler_cases, Hfind, Hunset.
    cbn [path filename stored_file].
    now rewrite validate_uploaded.
  - intros b i u Hvalid Hfind Hhash.
    pose proof Hfind as Hlook. apply list_find_Some in Hlook as (Hi & _).
    destruct (Hreach u (list_elem_of_lookup_2 _ _ _ Hi))
      as ([_ Hshape] & _).
    unfold editUser, findOne. rewrite Hvalid, Hfind. cbn [negb].
    rewrite (save_edited D _ _ _ _ _ _ Hi).
    unfold edit_valid in Hvalid.
    apply andb_true_iff in Hvalid as [Hname _].
    now rewrite validate_edited.
Qed.

Lemma requests_succeed_on_reachable_witness :
  status (fst (uploadImage Sample.deps Sample.env
                 (mkUpload "a@b.com" (Some png_small))
                 (snd (handle Sample.deps Sample.env (Create mixed_case_body)
                         {| users := []; disk := ∅ |}))))
  = 201.
Proof.
  destruct (requests_succeed_on_reachable Sample.deps Sample.env _
              reachable_init_witness) as [Hupload _].
  apply (Hupload (mkUpload "a@b.com" (Some png_small)) 0 sample_user
           png_small); reflexivity.
Defined.

(** ** Emails are never rewritten *)

(** X19.  No route changes the email of a stored user.  The emails in
    the collection, taken in order, stay the same under edit, getAll
    and uploadImage; a create can only append the normalized address to
    them and a delete can only take that address out. *)
Theorem emails_change_only_by_create_and_delete D env r st :
  let before := email <$> users st in
  let after := email <$> users (snd (handle D env r st)) in
  match r with
  | Create b =>
      after = before
      \/ after = before ++ [normalizeEmail D (req_email b)]
  | Delete b =>
      after = before
      \/ exists i,
           before !! i = Some (normalizeEmail D (req_email b))
           /\ after = delete i before
  | Edit _ | GetAll | UploadImage _ => after = before
  end.
Proof.
  intros before after. unfold before, after.
  destruct r as [b | b | b | | q]; cbn.
  - destruct (decide (status (fst (createUser D env b (users st))) = 201))
      as [H201 | Hno]; [| left; now rewrite createUser_unsaved].
    right. rewrite (createUser_saved _ _ _ _ H201). now rewrite fmap_app.
  - destruct (decide (status (fst (editUser D env b (users st))) = 200))
      as [H200 | Hno]; [| now rewrite editUser_unsaved].
    destruct (editUser_saved _ _ _ _ H200) as (i & u & Hfind & ->).
    apply list_find_Some in Hfind as (Hi & _).
    rewrite list_fmap_insert. cbn [email]. apply list_insert_id.
    now rewrite list_lookup_fmap, Hi.
  - unfold deleteUser.
    destruct (delete_valid D b); cbn [negb]; [| now left].
    destruct (findOne (normalizeEmail D (req_email b)) (users st))
      as [d |] eqn:Hfind; [| now left].
    apply findOne_Some in Hfind as (i & u & Hfind & ->).
    apply list_find_Some in Hfind as (Hi & He & _).
    right. exists i. cbn. rewrite list_fmap_delete.
    split; [| reflexivity]. now rewrite list_lookup_fmap, Hi, <- He.
  - reflexivity.
  - destruct (decide (status (fst (uploadImage D env q st)) = 201))
      as [H201 | Hno]; [| now rewrite uploadImage_unsaved].
    destruct (uploadImage_201 _ _ _ _ H201)
      as (i & u & f0 & _ & Hfind & _ & ->).
    apply list_find_Some in Hfind as (Hi & _).
    cbn [users]. rewrite list_fmap_insert. cbn [email with_imagePath].
    apply list_insert_id. now rewrite list_lookup_fmap, Hi.
Qed.

(** ** Generated file names *)

Lemma pretty_N_char_digit (x : N) : Re.digit (pretty_N_char x) = true.
Proof.
  unfold pretty_N_char. repeat case_match; reflexivity.
Qed.

Lemma pretty_N_go_digits (x : N) (s : string) :
  all_chars Re.digit s -> all_chars Re.digit (pretty_N_go x s).
Proof.
  revert s. induction (N.lt_wf_0 x) as [x _ IH]; intros s Hs.
  assert (x = 0 \/ 0 < x)%N as [-> | Hpos] by lia.
  - now rewrite pretty_N_go_0.
  - rewrite pretty_N_go_step by assumption. apply IH.
    + now apply N.div_lt.
    + apply all_chars_cons. split; [apply pretty_N_char_digit | assumption].
Qed.

Lemma pretty_N_digits (x : N) : all_chars Re.digit (pretty x).
Proof.
  unfold pretty, pretty_N. case_decide.
  - apply all_chars_cons. split; [reflexivity | apply all_chars_nil].
  - apply pretty_N_go_digits, all_chars_nil.
Qed.

Lemma pretty_Z_digits (t : Z) : (0 <= t)%Z -> all_chars Re.digit (pretty t).
Proof.
  destruct t as [| p | p]; intros Ht; [| | lia].
  - apply all_chars_cons. split; [reflexivity | apply all_chars_nil].
  - apply (pretty_N_digits (Npos p)).
Qed.

Lemma split_at_separator (p : ascii -> bool) (c : ascii)
    (d1 d2 a b : string) :
  p c = false -> all_chars p d1 -> all_chars p d2 ->
  (d1 ++ String c a)%string = (d2 ++ String c b)%string ->
  d1 = d2 /\ a = b.
Proof.
  intros Hc. revert d2.
  induction d1 as [| x d1 IH]; intros [| y d2] H1 H2 Heq.
  - rewrite !append_nil_l in Heq. now injection Heq as ->.
  - rewrite append_nil_l, append_cons in Heq. injection Heq as <- _.
    apply all_chars_cons in H2 as [H2 _]. congruence.
  - rewrite append_nil_l, append_cons in Heq. injection Heq as -> _.
    apply all_chars_cons in H1 as [H1 _]. congruence.
  - rewrite !append_cons in Heq. injection Heq as -> Heq.
    apply all_chars_cons in H1 as [_ H1].
    apply all_chars_cons in H2 as [_ H2].
    destruct (IH d2 H1 H2 Heq) as [-> ->]. auto.
Qed.

(** X18.  The generated file name tells the clock value and the
    original name apart: two uploads whose clock values (not negative)
    or original names differ are written under different names, so
    neither file replaces the other. *)
Theorem generated_names_differ (t1 t2 : Z) (f1 f2 : File) :
  (0 <= t1)%Z -> (0 <= t2)%Z ->
  t1 <> t2 \/ originalname f1 <> originalname f2 ->
  Upload.make_filename t1 f1 <> Upload.make_filename t2 f2.
Proof.
  intros H1 H2 Hdiff Heq. unfold Upload.make_filename in Heq.
  apply (split_at_separator Re.digit) in Heq as [Hd Hname];
    [| reflexivity | now apply pretty_Z_digits..].
  apply (inj pretty) in Hd. destruct Hdiff; contradiction.
Qed.

Lemma generated_names_differ_witness :
  Upload.make_filename 1700000000000 png_small
  <> Upload.make_filename 1700000000001 png_small.
Proof.
  apply generated_names_differ; [lia | lia | left; lia].
Defined.
